(** * Voice-phishing detector: chunked transcription, analysis graph, score parsing

    A shallow embedding of the Python sources

    - [webpage/practive_voice.py]  (class [VoiceToTextConverter]),
    - [webpage/model/graph_model.py]  (class [VoicePhishingDetector]),
    - [voice_phishing_detector.py]  (function [analyze_audio]),
    - [webpage/streamlit_voice_app.py]  (the page script),

    followed by the properties proved about them.

    Conventions.  A Python [str] is a list of Unicode code points.  A Python
    float is the rational number it denotes; the sums and quotients the
    sources compute on floats are rounded to the nearest double ([Float]).
    Exceptions are explicit: a computation that can raise returns an
    [Outcome], and an [except Exception] clause handles the exceptions whose
    class derives from [Exception] and lets the others pass.  The services
    the program calls (Whisper, librosa, the file system, the language model,
    the search tool) are parameters of the functions that use them. *)

From Stdlib Require Import ZArith QArith Qround Qpower Lqa Lia List Sorted.
From Stdlib Require Import Ascii String DecimalString DecimalPos DecimalZ.
From stdpp Require Import base tactics option list strings gmap sorting relations.

Local Open Scope Z_scope.

(* ===================================================================== *)
(** * Python builtins used by the sources *)
(* ===================================================================== *)

Module Py.

(** A Python string: its code points. *)
Definition str := list Z.

(** Code points of a UTF-8 byte sequence (the bytes of a string literal of
    this file). *)
Fixpoint utf8 (bs : list Z) : str :=
  match bs with
  | [] => []
  | b0 :: t0 =>
    if b0 <? 128 then b0 :: utf8 t0
    else
      match t0 with
      | [] => []
      | b1 :: t1 =>
        if b0 <? 224 then ((b0 - 192) * 64 + (b1 - 128)) :: utf8 t1
        else
          match t1 with
          | [] => []
          | b2 :: t2 =>
            if b0 <? 240
            then ((b0 - 224) * 4096 + (b1 - 128) * 64 + (b2 - 128)) :: utf8 t2
            else
              match t2 with
              | [] => []
              | b3 :: t3 =>
                ((b0 - 240) * 262144 + (b1 - 128) * 4096
                 + (b2 - 128) * 64 + (b3 - 128)) :: utf8 t3
              end
          end
      end
  end.

(** The Python string written as the literal [s]. *)
Definition py (s : string) : str :=
  utf8 (map (fun a => Z.of_N (N_of_ascii a)) (list_ascii_of_string s)).

(** The result of a call: a value, or a raised exception. *)
Inductive Outcome (E A : Type) : Type :=
| Returned (a : A)
| Raised (e : E).
Arguments Returned {E A} a.
Arguments Raised {E A} e.

Definition bind {E A B} (c : Outcome E A) (k : A -> Outcome E B) : Outcome E B :=
  match c with
  | Returned a => k a
  | Raised e => Raised e
  end.

(** The classes that derive from [BaseException] without deriving from
    [Exception]: those of the interpreter, [asyncio.CancelledError], and the
    script-control exceptions of Streamlit. *)
Definition outside_Exception : list string :=
  ["BaseException"; "BaseExceptionGroup"; "KeyboardInterrupt"; "SystemExit";
   "GeneratorExit"; "CancelledError"; "ScriptControlException";
   "StopException"; "RerunException"]%string.

(** [isinstance(e, Exception)], for an exception [e] of the class named
    [exn_class]. *)
Definition is_Exception (exn_class : string) : bool :=
  negb (existsb (String.eqb exn_class) outside_Exception).

(** [try: body  except Exception as e: handler e].  [class_of] reads the
    class of an exception; an exception that is no instance of [Exception]
    passes the clause. *)
Definition try_except {E A} (class_of : E -> string) (body : Outcome E A)
    (handler : E -> Outcome E A) : Outcome E A :=
  match body with
  | Returned a => Returned a
  | Raised e => if is_Exception (class_of e) then handler e else Raised e
  end.

(** The two builtin exceptions the score parser can raise (their messages are
    not modelled). *)
Inductive PyError : Type := IndexError | ValueError.

(** [l[i]] for a non-negative index. *)
Definition getitem {A} (l : list A) (i : nat) : Outcome PyError A :=
  match nth_error l i with
  | Some x => Returned x
  | None => Raised IndexError
  end.

Definition mem (c : Z) (l : list Z) : bool := existsb (Z.eqb c) l.

(** Line boundaries of [str.splitlines]. *)
Definition is_linebreak (c : Z) : bool :=
  mem c [10; 11; 12; 13; 28; 29; 30; 133; 8232; 8233].

(** [s.splitlines()]: the lines of [s] without their terminators; CR LF is one
    terminator, and a final terminator opens no further line. *)
Fixpoint splitlines (s : str) : list str :=
  match s with
  | [] => []
  | c :: t =>
    if is_linebreak c then
      match t with
      | [] => [[]]
      | d :: t' =>
        if (c =? 13) && (d =? 10) then [] :: splitlines t' else [] :: splitlines t
      end
    else
      match splitlines t with
      | [] => [[c]]
      | l :: ls => (c :: l) :: ls
      end
  end.

(** [s.split(sep)] for a separator of one character. *)
Fixpoint split (sep : Z) (s : str) : list str :=
  match s with
  | [] => [[]]
  | c :: t =>
    if c =? sep then [] :: split sep t
    else
      match split sep t with
      | [] => [[c]]
      | l :: ls => (c :: l) :: ls
      end
  end.

(** [c.isspace()]. *)
Definition isspace (c : Z) : bool :=
  ((9 <=? c) && (c <=? 13)) || ((28 <=? c) && (c <=? 32))
  || ((8192 <=? c) && (c <=? 8202))
  || mem c [133; 160; 5760; 8232; 8233; 8239; 8287; 12288].

Fixpoint drop_while (p : Z -> bool) (s : str) : str :=
  match s with
  | [] => []
  | c :: t => if p c then drop_while p t else s
  end.

(** [s.strip()]. *)
Definition strip (s : str) : str :=
  rev (drop_while isspace (rev (drop_while isspace s))).

(** Whitespace that [int] skips around a literal: the Unicode spaces except
    the four ASCII separators U+001C..U+001F. *)
Definition int_space (c : Z) : bool :=
  isspace c && negb ((28 <=? c) && (c <=? 31)).

(** The code points of the digit zero of every decimal script (Unicode 14.0,
    the table of CPython 3.11); the nine following code points are the digits
    one to nine of that script. *)
Definition decimal_zeros : list Z :=
  [48; 1632; 1776; 1984; 2406; 2534; 2662; 2790; 2918; 3046; 3174; 3302;
   3430; 3558; 3664; 3792; 3872; 4160; 4240; 6112; 6160; 6470; 6608; 6784;
   6800; 6992; 7088; 7232; 7248; 42528; 43216; 43264; 43472; 43504; 43600;
   44016; 65296; 66720; 68912; 69734; 69872; 69942; 70096; 70384; 70736;
   70864; 71248; 71360; 71472; 71904; 72016; 72784; 73040; 73120; 92768;
   92864; 93008; 120782; 120792; 120802; 120812; 120822; 123200; 123632;
   125264; 130032].

(** The value of a decimal digit. *)
Definition decimal (c : Z) : option Z :=
  match find (fun z => (z <=? c) && (c <? z + 10)) decimal_zeros with
  | Some z => Some (c - z)
  | None => None
  end.

(** The default of [sys.get_int_max_str_digits()]. *)
Definition int_max_str_digits : Z := 4300.

(** The rest of a literal after its first digit: digits, single underscores
    between digits, then only whitespace.  [acc] is the value and [n] the
    number of digits read so far. *)
Fixpoint int_digits (acc n : Z) (s : str) : option (Z * Z) :=
  match s with
  | [] => Some (acc, n)
  | c :: t =>
    match decimal c with
    | Some d => int_digits (acc * 10 + d) (n + 1) t
    | None =>
      if c =? 95 then
        match t with
        | [] => None
        | c' :: t' =>
          match decimal c' with
          | Some d => int_digits (acc * 10 + d) (n + 1) t'
          | None => None
          end
        end
      else if forallb int_space s then Some (acc, n) else None
    end
  end.

(** [int(s)] for a string [s] (base 10). *)
Definition int (s : str) : Outcome PyError Z :=
  let s1 := drop_while int_space s in
  let '(sign, s2) :=
    match s1 with
    | c :: t => if c =? 43 then (1, t) else if c =? 45 then (-1, t) else (1, s1)
    | [] => (1, s1)
    end in
  match s2 with
  | [] => Raised ValueError
  | c :: t =>
    match decimal c with
    | None => Raised ValueError
    | Some d =>
      match int_digits d 1 t with
      | None => Raised ValueError
      | Some (v, n) =>
        if n >? int_max_str_digits then Raised ValueError
        else Returned (sign * v)
      end
    end
  end.

(** [str(n)] for an integer [n]. *)
Definition str_of_int (n : Z) : str :=
  py (NilZero.string_of_int (Z.to_int n)).

End Py.

(* ===================================================================== *)
(** * Python floats *)
(* ===================================================================== *)

(** A float is an IEEE 754 double (binary64); it is modelled as the rational
    it denotes.  An operation returns the double nearest to the exact result,
    ties going to the even significand.  Overflow to infinity is not
    modelled: the sums below are of times in seconds. *)
Module Float.

Definition pow2 (e : Z) : Q := (2 ^ e)%Q.

(** The exponent of a positive rational [x]: the [e] with
    [2^e <= x < 2^(e+1)]. *)
Definition exponent (x : Q) : Z :=
  let c := Z.log2 (Qnum x) - Z.log2 (Z.pos (Qden x)) in
  if Qle_bool (pow2 c) x then c else c - 1.

(** The nearest integer, ties to even. *)
Definition nearest_even (t : Q) : Z :=
  let f := Qfloor t in
  match (t - inject_Z f ?= 1 # 2)%Q with
  | Lt => f
  | Eq => if Z.even f then f else f + 1
  | Gt => f + 1
  end.

(** The double nearest to a positive rational: a significand of 53 bits, and
    exponents from -1022 (below [2^-1022] the doubles are the multiples of
    [2^-1074]). *)
Definition round_pos (x : Q) : Q :=
  let e := Z.max (exponent x) (-1022) in
  (inject_Z (nearest_even (x / pow2 (e - 52))) * pow2 (e - 52))%Q.

(** The double nearest to a rational. *)
Definition round (x : Q) : Q :=
  match (x ?= 0)%Q with
  | Eq => 0%Q
  | Gt => round_pos x
  | Lt => (- round_pos (- x))%Q
  end.

(** [x + y], [x - y] and [x / y] on floats. *)
Definition add (x y : Q) : Q := round (x + y).
Definition sub (x y : Q) : Q := round (x - y).
Definition div (x y : Q) : Q := round (x / y).

(** [float(n)] for an integer [n]. *)
Definition of_int (n : Z) : Q := round (inject_Z n).

End Float.

(* ===================================================================== *)
(** * voice_phishing_detector.py *)
(* ===================================================================== *)

Module Detector.
Import Py.

(** [int(phishing_result.splitlines()[0].split(":")[1])]
    ([analyze_audio], the line that computes [risk_score]). *)
Definition risk_score (phishing_result : str) : Outcome PyError Z :=
  bind (getitem (splitlines phishing_result) 0) (fun line =>
  bind (getitem (split 58 line) 1) (fun field =>
  int field)).

(** The three banners of [analyze_audio]: [st.error] (high risk),
    [st.warning] (medium risk), [st.success] (low risk). *)
Inductive Tier : Type := HIGH | MEDIUM | LOW.

(** [if risk_score >= 7: ... elif risk_score >= 4: ... else: ...]. *)
Definition risk_tier (risk_score : Z) : Tier :=
  if risk_score >=? 7 then HIGH
  else if risk_score >=? 4 then MEDIUM
  else LOW.

End Detector.

(* ===================================================================== *)
(** * webpage/practive_voice.py: class VoiceToTextConverter *)
(* ===================================================================== *)

Module Voice.
Import Py.

(** An exception object: its class and [str(e)]. *)
Record Exn : Type := { exn_class : string; message : str }.

(** A Whisper segment (the keys ["start"], ["end"], ["text"]). *)
Record Segment : Type := { start : Q; end_ : Q; seg_text : str }.

(** A transcription result (the keys ["text"], ["segments"], ["language"]);
    the language may be [None]. *)
Record Transcription : Type :=
  { text : str; segments : list Segment; language : option str }.

(** What [process_call_recording] returns: the dictionary with
    ["success": True] or the one with ["success": False]. *)
Inductive CallResult : Type :=
| CallOk (text : str) (segments : list Segment) (output_file : str)
         (base_filename : option str)
| CallFailed (error : str).

Definition success (r : CallResult) : bool :=
  match r with
  | CallOk _ _ _ _ => true
  | CallFailed _ => false
  end.

Definition len {A} (l : list A) : Z := Z.of_nat (length l).

(** [l[a:b]] for [0 <= a]. *)
Definition slice {A} (l : list A) (a b : Z) : list A :=
  firstn (Z.to_nat (b - a)) (skipn (Z.to_nat a) l).

(** [range(n)]. *)
Definition range (n : Z) : list Z := map Z.of_nat (seq 0 (Z.to_nat n)).

Definition Qltb (x y : Q) : bool :=
  match (x ?= y)%Q with
  | Lt => true
  | _ => false
  end.

Definition chunk_length : Z := 30.
Definition sample_rate : Z := 16000.
Definition chunk_samples : Z := chunk_length * sample_rate.

(** [n / sample_rate]: the seconds that [n] samples last.  The quotient of
    the two integers is a float; where the loop uses it, at the end of a full
    window, it is a whole multiple of 30 and the float is exact (for every
    buffer of less than [2^53] seconds). *)
Definition seconds (n : Z) : Q := inject_Z n / inject_Z sample_rate.

(** [segment.copy()] with ["start"] and ["end"] increased by the offset
    ([+=] on floats). *)
Definition adjusted_segment (offset : Q) (segment : Segment) : Segment :=
  {| start := Float.add (start segment) offset;
     end_ := Float.add (end_ segment) offset;
     seg_text := seg_text segment |}.

(** [f"{n:02d}"]. *)
Definition format_02d (n : Z) : str :=
  let s := str_of_int n in
  if len s <? 2 then py "0" ++ s else s.

(** [format_time]: [int(seconds // 60)] and [int(seconds % 60)] as MM:SS. *)
Definition format_time (seconds : Q) : str :=
  let minutes := Qfloor (seconds / 60) in
  let seconds' := Qfloor (seconds - 60 * inject_Z (Qfloor (seconds / 60))) in
  format_02d minutes ++ py ":" ++ format_02d seconds'.

(** What one answer of the model adds to the text: its text and a space when
    the text is not blank; nothing when the call raised. *)
Definition text_part (o : Outcome Exn Transcription) : str :=
  match o with
  | Returned chunk_result =>
    match strip (text chunk_result) with
    | [] => []
    | _ :: _ => text chunk_result ++ py " "
    end
  | Raised _ => []
  end.

(** What one answer of the model adds to the segments under a given offset:
    its segments, shifted; nothing when the call raised. *)
Definition segments_part (offset : Q) (o : Outcome Exn Transcription) : list Segment :=
  match o with
  | Returned chunk_result => map (adjusted_segment offset) (segments chunk_result)
  | Raised _ => []
  end.

(** Segments in non-decreasing order of start time. *)
Definition start_le (a b : Segment) : Prop := (start a <= start b)%Q.

(** The variables of the loop of [_process_long_audio]. *)
Record LoopState : Type := {
  full_text : str;
  full_segments : list Segment;
  current_time_offset : Q
}.

Definition loop_start : LoopState :=
  {| full_text := []; full_segments := []; current_time_offset := 0 |}.

Section Converter.

(** The type of one audio sample. *)
Variable Sample : Type.

(** Seconds of audio in a buffer sampled at [sample_rate]. *)
Definition duration (samples : list Sample) : Q := seconds (len samples).

(** The services the converter calls.  [model_transcribe k audio language] is
    [self.model.transcribe(audio, **transcribe_options)] when [k] calls were
    made before it in the same request (the other options are constants of
    the source); printing is not modelled. *)
Record Services : Type := {
  path_exists : str -> bool;
  librosa_load : str -> Outcome Exn (list Sample);
  model_transcribe : nat -> list Sample -> option str -> Outcome Exn Transcription;
  makedirs : str -> Outcome Exn unit;
  splitext_root : str -> str;
  path_join : str -> str -> str;
  now_stamp : str;
  write_text : str -> str -> Outcome Exn unit
}.

Variable sv : Services.

(** The chunks passed to the model so far in a request, in order. *)
Definition Calls : Type := list (list Sample).

(** A run of the loop: its variables, or the exception that left it, and the
    calls made so far. *)
Definition Run : Type := (Outcome Exn LoopState * Calls)%type.

(** [self.model.transcribe(chunk_audio, **transcribe_options)] after the
    calls [log]: the model answers its call of that index, and the call joins
    the log.  Nothing else writes the log. *)
Definition transcribe (language : option str) (chunk : list Sample) (log : Calls)
  : Outcome Exn Transcription * Calls :=
  (model_transcribe sv (length log) chunk language, log ++ [chunk]).

Definition total_chunks (audio_data : list Sample) : Z :=
  len audio_data / chunk_samples
  + (if len audio_data mod chunk_samples >? 0 then 1 else 0).

(** The bounds and the samples of chunk [i]. *)
Definition start_sample (i : Z) : Z := i * chunk_samples.
Definition end_sample (audio_data : list Sample) (i : Z) : Z :=
  Z.min ((i + 1) * chunk_samples) (len audio_data).
Definition chunk_audio (audio_data : list Sample) (i : Z) : list Sample :=
  slice audio_data (start_sample i) (end_sample audio_data i).

(** [len(chunk_audio) < sample_rate * 0.5]. *)
Definition too_short (chunk : list Sample) : bool :=
  Qltb (inject_Z (len chunk)) (inject_Z sample_rate * 0.5).

(** One iteration of the loop over [range(total_chunks)].  The [except
    Exception] clause of the body skips the window ([continue], before the
    offset is assigned); an exception that is no instance of [Exception]
    leaves the body. *)
Definition chunk_body (language : option str) (audio_data : list Sample)
    (st : LoopState) (i : Z) (log : Calls) : Run :=
  let chunk := chunk_audio audio_data i in
  if too_short chunk then (Returned st, log)
  else
    let (answer, log) := transcribe language chunk log in
    match answer with
    | Returned chunk_result =>
      (Returned
         {| full_text :=
              match strip (text chunk_result) with
              | [] => full_text st
              | _ :: _ => full_text st ++ text chunk_result ++ py " "
              end;
            full_segments :=
              full_segments st
              ++ map (adjusted_segment (current_time_offset st))
                     (segments chunk_result);
            current_time_offset := seconds (end_sample audio_data i) |},
       log)
    | Raised e =>
      if is_Exception (exn_class e) then (Returned st, log) else (Raised e, log)
    end.

(** The loop goes on to iteration [i] unless an exception has left it. *)
Definition loop_step (language : option str) (audio_data : list Sample)
    (run : Run) (i : Z) : Run :=
  match fst run with
  | Returned st => chunk_body language audio_data st i (snd run)
  | Raised _ => run
  end.

(** The run after the loop. *)
Definition chunk_loop (language : option str) (audio_data : list Sample) : Run :=
  fold_left (loop_step language audio_data) (range (total_chunks audio_data))
            (Returned loop_start, []).

(** The run after the first [k] iterations. *)
Definition loop_upto (language : option str) (audio_data : list Sample) (k : nat)
  : Run :=
  fold_left (loop_step language audio_data) (range (Z.of_nat k))
            (Returned loop_start, []).

(** [_process_long_audio]: the loop, then the stripped text.  The options
    always hold the key ["language"], so [transcribe_options.get("language",
    "ko")] is the language of the request. *)
Definition _process_long_audio (audio_data : list Sample) (language : option str)
  : Outcome Exn Transcription :=
  bind (fst (chunk_loop language audio_data)) (fun st =>
  Returned {| text := strip (full_text st);
              segments := full_segments st;
              language := language |}).

(** The chunks [_process_long_audio] passes to the model, in order. *)
Definition transcribe_calls (audio_data : list Sample) (language : option str)
  : Calls :=
  snd (chunk_loop language audio_data).

(** The windows the loop cuts: [chunk_audio] for each [i] of
    [range(total_chunks)]. *)
Definition windows (audio_data : list Sample) : list (list Sample) :=
  map (chunk_audio audio_data) (range (total_chunks audio_data)).

(** What the model answers to each call of [_process_long_audio], in order. *)
Definition outcomes (audio_data : list Sample) (language : option str)
  : list (Outcome Exn Transcription) :=
  imap (fun k chunk => model_transcribe sv k chunk language)
       (transcribe_calls audio_data language).

(** What the request assumes of the model: the segments of every answer are
    in order of start time and start within the chunk. *)
Definition answers_in_order (language : option str) : Prop :=
  forall (k : nat) (chunk : list Sample) (r : Transcription),
    model_transcribe sv k chunk language = Returned r ->
    Sorted start_le (segments r) /\
    Forall (fun s => (0 <= start s)%Q /\ (start s <= duration chunk)%Q) (segments r).

Definition transcribe_audio (audio_file_path : str) (language : option str)
  : Outcome Exn Transcription :=
  if negb (path_exists sv audio_file_path) then
    Raised {| exn_class := "FileNotFoundError";
              message := py "파일을 찾을 수 없습니다: " ++ audio_file_path |}
  else
    try_except exn_class
      (bind (librosa_load sv audio_file_path) (fun audio_data =>
         if len audio_data >? 16000 * 30
         then _process_long_audio audio_data language
         else model_transcribe sv 0 audio_data language))
      (fun e =>
         Raised {| exn_class := "Exception";
                   message := py "음성 인식 실패: " ++ message e |}).

(** The text [save_transcript] writes. *)
Definition transcript_lines (result : Transcription) : str :=
  py "세그먼트별 상세:" ++ [10] ++ repeat 45 30 ++ [10]
  ++ flat_map (fun segment =>
       py "[" ++ format_time (start segment) ++ py " - "
       ++ format_time (end_ segment) ++ py "] " ++ seg_text segment ++ [10])
     (segments result).

Definition save_transcript (result : Transcription) (output_file : option str)
    (base_filename : option str) : Outcome Exn str :=
  let text_dir := py "src/text" in
  bind (makedirs sv text_dir) (fun _ =>
  let output_file :=
    match output_file with
    | Some f => f
    | None =>
      let filename :=
        match base_filename with
        | Some (c :: b) => splitext_root sv (c :: b) ++ py ".txt"
        | _ => py "transcript_" ++ now_stamp sv ++ py ".txt"
        end in
      path_join sv text_dir filename
    end in
  bind (write_text sv output_file (transcript_lines result)) (fun _ =>
  Returned output_file)).

Definition process_call_recording (audio_file : str) (output_file : option str)
    (language : option str) (base_filename : option str) : Outcome Exn CallResult :=
  try_except exn_class
    (bind (transcribe_audio audio_file language) (fun result =>
     bind (save_transcript result output_file base_filename) (fun saved_file =>
     Returned (CallOk (text result) (segments result) saved_file base_filename))))
    (fun e => Returned (CallFailed (message e))).

End Converter.

Arguments path_exists {Sample}.
Arguments librosa_load {Sample}.
Arguments model_transcribe {Sample}.
Arguments makedirs {Sample}.
Arguments splitext_root {Sample}.
Arguments path_join {Sample}.
Arguments now_stamp {Sample}.
Arguments write_text {Sample}.
Arguments transcribe {Sample}.
Arguments total_chunks {Sample}.
Arguments end_sample {Sample}.
Arguments chunk_audio {Sample}.
Arguments too_short {Sample}.
Arguments chunk_body {Sample}.
Arguments loop_step {Sample}.
Arguments chunk_loop {Sample}.
Arguments loop_upto {Sample}.
Arguments _process_long_audio {Sample}.
Arguments transcribe_calls {Sample}.
Arguments windows {Sample}.
Arguments answers_in_order {Sample}.
Arguments outcomes {Sample}.
Arguments duration {Sample}.
Arguments transcribe_audio {Sample}.
Arguments transcript_lines : clear implicits.
Arguments save_transcript {Sample}.
Arguments process_call_recording {Sample}.

End Voice.

(* ===================================================================== *)
(** * webpage/model/graph_model.py: class VoicePhishingDetector *)
(* ===================================================================== *)

Module Graph.
Import Py.

Inductive Role : Type := human | ai | system | tool.

(** A tool call requested by the language model. *)
Record ToolCall : Type := { tool_name : string; tool_args : str }.

(** A conversation message.  [additional_kwargs] is the dictionary the chat
    model attaches; its key ["tool_calls"] holds the requested tool calls. *)
Record Message : Type := {
  role : Role;
  content : str;
  additional_kwargs : gmap string (list ToolCall)
}.

(** A value a node (or the caller) writes under a key. *)
Inductive Value : Type :=
| VStr (s : str)
| VMessage (m : Message)
| VList (ms : list Message).

(** The dictionary a node returns. *)
Abbreviation Update := (gmap string Value).

(** [class State(TypedDict)]: the two channels of the graph, both reduced by
    [add_messages]. *)
Record State : Type := { messages : list Message; dummy_data : list Message }.

(** [HumanMessage(content=s)]. *)
Definition HumanMessage (s : str) : Message :=
  {| role := human; content := s; additional_kwargs := ∅ |}.

(** The reducer [add_messages]: the written value, coerced to a list of
    messages (a string becomes a human message), is appended.  Message ids
    are fresh, so no earlier message is replaced. *)
Definition add_messages (left : list Message) (right : Value) : list Message :=
  left ++
  match right with
  | VStr s => [HumanMessage s]
  | VMessage m => [m]
  | VList ms => ms
  end.

(** How the graph applies the dictionary a node returns: each channel of
    [State] that the dictionary names is reduced; a key that names no channel
    writes nothing. *)
Definition apply_update (st : State) (u : Update) : State :=
  {| messages :=
       match u !! "messages"%string with
       | Some v => add_messages (messages st) v
       | None => messages st
       end;
     dummy_data :=
       match u !! "dummy_data"%string with
       | Some v => add_messages (dummy_data st) v
       | None => dummy_data st
       end |}.

(** Exceptions of a run, by class name. *)
Definition Exn := string.

(** The capabilities the detector calls: [self.llm_tool.invoke],
    [self.analyze_chain.invoke] and the search tool run by [self.tool_node]
    (a failing search is reported in the text it returns). *)
Record Capabilities : Type := {
  llm_tool : list Message -> Outcome Exn Message;
  analyze_chain : list Message -> Outcome Exn Message;
  tavily_tool : ToolCall -> str
}.

Definition Action := State -> Outcome Exn Update.

(** What [_build_graph] builds: named nodes, fixed edges and conditional
    edges. *)
Record StateGraph : Type := {
  nodes : list (string * Action);
  edges : list (string * string);
  branches : list (string * (State -> Outcome Exn string))
}.

Definition START : string := "__start__".
Definition END : string := "__end__".

Definition empty_graph : StateGraph := {| nodes := []; edges := []; branches := [] |}.

Definition add_node (name : string) (action : Action) (g : StateGraph) : StateGraph :=
  {| nodes := nodes g ++ [(name, action)]; edges := edges g; branches := branches g |}.

Definition add_edge (a b : string) (g : StateGraph) : StateGraph :=
  {| nodes := nodes g; edges := edges g ++ [(a, b)]; branches := branches g |}.

Definition set_entry_point (name : string) : StateGraph -> StateGraph :=
  add_edge START name.

Definition set_finish_point (name : string) : StateGraph -> StateGraph :=
  add_edge name END.

Definition add_conditional_edges (name : string)
    (path : State -> Outcome Exn string) (g : StateGraph) : StateGraph :=
  {| nodes := nodes g; edges := edges g; branches := branches g ++ [(name, path)] |}.

Section Detector.

Variable caps : Capabilities.

(** [return {'context': [self.llm_tool.invoke(state['messages'])]}]. *)
Definition _search_node (state : State) : Outcome Exn Update :=
  bind (llm_tool caps (messages state)) (fun m =>
  Returned {[ "context"%string := VList [m] ]}).

(** [return {"messages": self.analyze_chain.invoke(...), "dummy_data": 'anal step'}]. *)
Definition _answer_node (state : State) : Outcome Exn Update :=
  bind (analyze_chain caps (messages state)) (fun m =>
  Returned (<[ "messages"%string := VMessage m ]>
            {[ "dummy_data"%string := VStr (py "anal step") ]})).

(** [ToolNode(self.tools)]: runs the tool calls of the last message, which
    must be an assistant message, and writes one tool message per call. *)
Definition tool_node (state : State) : Outcome Exn Update :=
  match last (messages state) with
  | Some m =>
    match role m with
    | ai =>
      Returned {[ "messages"%string :=
        VList (map (fun c => {| role := tool; content := tavily_tool caps c;
                                additional_kwargs := ∅ |})
                   (default [] (additional_kwargs m !! "tool_calls"%string))) ]}
    | _ => Raised "ValueError"%string
    end
  | None => Raised "ValueError"%string
  end.

(** ["tools"] when ["tool_calls" in last_message.additional_kwargs], else
    ["answer"]; [state['messages'][-1]] raises on an empty list. *)
Definition _custom_tools_condition (state : State) : Outcome Exn string :=
  match last (messages state) with
  | Some last_message =>
    if bool_decide (is_Some (additional_kwargs last_message !! "tool_calls"%string))
    then Returned "tools"%string
    else Returned "answer"%string
  | None => Raised "IndexError"%string
  end.

(** [_build_graph], call by call. *)
Definition _build_graph : StateGraph :=
  add_edge "tools" "answer"
  (add_conditional_edges "search" _custom_tools_condition
  (set_finish_point "answer"
  (set_entry_point "search"
  (add_node "answer" _answer_node
  (add_node "tools" tool_node
  (add_node "search" _search_node empty_graph)))))).

End Detector.

(** First value bound to [k] in an association list. *)
Fixpoint assoc {A} (k : string) (l : list (string * A)) : option A :=
  match l with
  | [] => None
  | (k', v) :: l' => if String.eqb k k' then Some v else assoc k l'
  end.

(** The node that runs after [node] has written its update: the result of the
    node's conditional edge when it has one, else the target of its fixed
    edge.  (No node of the detector's graph has more than one way out, so a
    run visits one node at a time.) *)
Definition next_node (g : StateGraph) (node : string) (st : State)
  : Outcome Exn string :=
  match assoc node (branches g) with
  | Some path => path st
  | None =>
    match assoc node (edges g) with
    | Some target => Returned target
    | None => Returned END
    end
  end.

(** The default [recursion_limit] of a compiled graph. *)
Definition recursion_limit : nat := 25.

(** A run from [node]: the node's action, its update applied to the state,
    then the next node; [trace] lists the nodes already run.  More than
    [recursion_limit] steps raise [GraphRecursionError]. *)
Fixpoint run (g : StateGraph) (fuel : nat) (node : string) (st : State)
    (trace : list string) : Outcome Exn (list string * State) :=
  if String.eqb node END then Returned (trace, st)
  else
    match fuel with
    | O => Raised "GraphRecursionError"%string
    | S fuel' =>
      match assoc node (nodes g) with
      | None => Raised "ValueError"%string
      | Some action =>
        bind (action st) (fun u =>
        let st' := apply_update st u in
        bind (next_node g node st') (fun node' =>
        run g fuel' node' st' (trace ++ [node])))
      end
    end.

(** [self.vp_search.invoke(input)]: the input is written to the channels,
    then the graph runs from its entry point. *)
Definition invoke (g : StateGraph) (input : Update)
  : Outcome Exn (list string * State) :=
  let st := apply_update {| messages := []; dummy_data := [] |} input in
  bind (next_node g START st) (fun entry =>
  run g recursion_limit entry st []).

(** [analyze_text]: [self.vp_search.invoke({'messages': text})], then the
    content of the last message. *)
Definition analyze_text (caps : Capabilities) (text : str) : Outcome Exn str :=
  bind (invoke (_build_graph caps) {[ "messages"%string := VStr text ]}) (fun result =>
  match last (messages (snd result)) with
  | Some m => Returned (content m)
  | None => Raised "IndexError"%string
  end).

(** The nodes [analyze_text] runs, in order. *)
Definition analyze_trace (caps : Capabilities) (text : str)
  : Outcome Exn (list string) :=
  bind (invoke (_build_graph caps) {[ "messages"%string := VStr text ]}) (fun result =>
  Returned (fst result)).

(** The state after the search step of [analyze_text], and the route the
    conditional edge then takes. *)
Definition state_after_search (caps : Capabilities) (text : str)
  : Outcome Exn State :=
  let st := apply_update {| messages := []; dummy_data := [] |}
              {[ "messages"%string := VStr text ]} in
  bind (_search_node caps st) (fun u => Returned (apply_update st u)).

Definition route_after_search (caps : Capabilities) (text : str)
  : Outcome Exn string :=
  bind (state_after_search caps text) (_custom_tools_condition).

(** A way out of node [a] to node [b]: a fixed edge, or a value the
    conditional edge of [a] takes on some state. *)
Definition route (g : StateGraph) (a b : string) : Prop :=
  In (a, b) (edges g) \/
  exists path st, In (a, path) (branches g) /\ path st = Returned b.

(** The nodes met from [a] along routes. *)
Inductive walk (g : StateGraph) : string -> list string -> Prop :=
| walk_stop a : walk g a [a]
| walk_step a b l : route g a b -> walk g b l -> walk g a (a :: l).

(** The order in which the detector's graph places its nodes. *)
Definition rank (node : string) : nat :=
  if String.eqb node START then 0
  else if String.eqb node "search" then 1
  else if String.eqb node "tools" then 2
  else if String.eqb node "answer" then 3
  else 4.

End Graph.

(* ===================================================================== *)
(** * Concrete requests *)
(* ===================================================================== *)

Module Scenario.
Import Py Voice Graph.

(** 75 seconds of silence at 16 kHz. *)
Definition audio75 : list Z := repeat 0 (Z.to_nat (75 * 16000)).

(** 30 seconds and 100 samples: a second window far shorter than half a
    second. *)
Definition audio_short_tail : list Z := repeat 0 (Z.to_nat (30 * 16000 + 100)).

Definition ko : option str := Some (py "ko").

Definition first_answer : Transcription :=
  {| text := py "first";
     segments := [ {| start := 2; end_ := 4; seg_text := py "first" |} ];
     language := ko |}.

Definition third_answer : Transcription :=
  {| text := py "third";
     segments := [ {| start := 1; end_ := 3; seg_text := py "third" |} ];
     language := ko |}.

Definition out_of_memory : Voice.Exn :=
  {| exn_class := "RuntimeError"; message := py "CUDA out of memory" |}.

(** A model whose second call fails. *)
Definition fails_second (k : nat) (chunk : list Z) (language : option str)
  : Outcome Voice.Exn Transcription :=
  match k with
  | 0%nat => Returned first_answer
  | 1%nat => Raised out_of_memory
  | _ => Returned third_answer
  end.

(** A model whose every call fails. *)
Definition always_fails (k : nat) (chunk : list Z) (language : option str)
  : Outcome Voice.Exn Transcription :=
  Raised out_of_memory.

(** A model that marks the start and the end of each chunk, and whose second
    call fails. *)
Definition marks_ends (k : nat) (chunk : list Z) (language : option str)
  : Outcome Voice.Exn Transcription :=
  match k with
  | 1%nat => Raised out_of_memory
  | _ =>
    Returned
      {| text := py "mark";
         segments := [ {| start := 0; end_ := 0; seg_text := py "start" |};
                       {| start := duration chunk; end_ := duration chunk;
                          seg_text := py "end" |} ];
         language := language |}
  end.

(** The services around a model: the file exists and decodes to [audio75];
    the file system accepts every write. *)
Definition services
    (model : nat -> list Z -> option str -> Outcome Voice.Exn Transcription)
  : Services Z :=
  {| path_exists := fun _ => true;
     librosa_load := fun _ => Returned audio75;
     model_transcribe := model;
     makedirs := fun _ => Returned tt;
     splitext_root := fun p => p;
     path_join := fun a b => a ++ [47] ++ b;
     now_stamp := py "20250101_000000";
     write_text := fun _ _ => Returned tt |}.

(** A transcript that asks for a bank transfer. *)
Definition transcript : str := py "검찰청입니다. 지금 바로 계좌이체를 해주세요.".

Definition search_request : ToolCall :=
  {| tool_name := "tavily_search"; tool_args := py "voice phishing" |}.

(** The assistant message of a search step that requests one tool call. *)
Definition search_message : Message :=
  {| role := ai; content := [];
     additional_kwargs := {[ "tool_calls"%string := [search_request] ]} |}.

(** Capabilities whose search step requests a tool call. *)
Definition asks_for_search : Capabilities :=
  {| llm_tool := fun _ => Returned search_message;
     analyze_chain := fun _ =>
       Returned {| role := ai; content := py "score: 8"; additional_kwargs := ∅ |};
     tavily_tool := fun _ => py "result" |}.

(** Ctrl-C while the model runs. *)
Definition keyboard_interrupt : Voice.Exn :=
  {| exn_class := "KeyboardInterrupt"; message := [] |}.

(** A model whose every call is interrupted. *)
Definition interrupted (k : nat) (chunk : list Z) (language : option str)
  : Outcome Voice.Exn Transcription :=
  Raised keyboard_interrupt.

(** A model that answers every call with [first_answer]. *)
Definition answers_first (k : nat) (chunk : list Z) (language : option str)
  : Outcome Voice.Exn Transcription :=
  Returned first_answer.

End Scenario.

(* ===================================================================== *)
(** * The specification's wording of the score parser *)
(* ===================================================================== *)

Module Spec.
Import Py.

Fixpoint take_while (p : Z -> bool) (s : str) : str :=
  match s with
  | [] => []
  | c :: t => if p c then c :: take_while p t else []
  end.

Definition not_linebreak (c : Z) : bool := negb (is_linebreak c).
Definition not_colon (c : Z) : bool := negb (c =? 58).

(** The first line of a text: absent for the empty text, else the characters
    before the first line boundary. *)
Definition first_line (raw : str) : option str :=
  match raw with
  | [] => None
  | _ :: _ => Some (take_while not_linebreak raw)
  end.

(** The substring after the first [':'] of a line; absent when the line has
    no [':']. *)
Definition after_first_colon (line : str) : option str :=
  match drop_while not_colon line with
  | [] => None
  | _ :: value => Some value
  end.

(** The text between the first [':'] of a line and its next [':'] (or its
    end); absent when the line has no [':']. *)
Definition score_field (line : str) : option str :=
  match after_first_colon line with
  | None => None
  | Some value => Some (take_while not_colon value)
  end.

(** A run of decimal digits with single underscores between digits: the
    string, its value and its number of digits. *)
Inductive Digits : str -> Z -> Z -> Prop :=
| Digits_one c d :
    decimal c = Some d -> Digits [c] d 1
| Digits_digit s v n c d :
    Digits s v n -> decimal c = Some d -> Digits (s ++ [c]) (v * 10 + d) (n + 1)
| Digits_underscore s v n c d :
    Digits s v n -> decimal c = Some d -> Digits (s ++ [95; c]) (v * 10 + d) (n + 1).

(** An optional sign and its factor. *)
Inductive Sign : str -> Z -> Prop :=
| Sign_none : Sign [] 1
| Sign_plus : Sign [43] 1
| Sign_minus : Sign [45] (-1).

(** An integer literal denoting [n]: whitespace, an optional sign, digits (at
    most [int_max_str_digits] of them), whitespace. *)
Inductive IntLiteral : str -> Z -> Prop :=
| IntLiteral_intro ws1 sign sg body v n ws2 :
    forallb int_space ws1 = true ->
    Sign sign sg ->
    Digits body v n ->
    n <= int_max_str_digits ->
    forallb int_space ws2 = true ->
    IntLiteral (ws1 ++ sign ++ body ++ ws2) (sg * v).

(** A digit is no whitespace, no underscore and no sign. *)
Definition digit_facts (c : Z) : bool :=
  negb (int_space c) && negb (c =? 95) && negb (c =? 43) && negb (c =? 45).

(** Reading a literal from its first digit, as [int] does after the sign. *)
Definition scan (s : str) : option (Z * Z) :=
  match s with
  | [] => None
  | c :: t =>
    match decimal c with
    | Some d => int_digits d 1 t
    | None => None
    end
  end.

Inductive FormatError : Type := format_error.

(** [parseJudgment] as the specification words it: the substring after the
    first [':'] of the first line, parsed as an integer; a [FormatError] when
    the line is absent, the separator is missing, or the value is not an
    integer. *)
Definition parseJudgment (rawText : str) : Outcome FormatError Z :=
  match first_line rawText with
  | None => Raised format_error
  | Some line =>
    match after_first_colon line with
    | None => Raised format_error
    | Some value =>
      match int value with
      | Returned n => Returned n
      | Raised _ => Raised format_error
      end
    end
  end.

End Spec.

(* ===================================================================== *)
(** * Further definitions: the timeline of a recording *)
(* ===================================================================== *)

Module Stitching.
Import Py Voice.

(** Two segments with the same text and equal times. *)
Definition same_segment (a b : Segment) : Prop :=
  (start a == start b)%Q /\ (end_ a == end_ b)%Q /\ seg_text a = seg_text b.

Section Timeline.

Variable Sample : Type.

(** The windows the loop passes to the model. *)
Definition kept_windows (audio_data : list Sample) : list Z :=
  List.filter (fun i => negb (too_short (chunk_audio audio_data i)))
              (range (total_chunks audio_data)).

(** The segments of window [i] where they belong in the recording: each
    with its times increased by [chunk_length * i] seconds, in float
    arithmetic.  [answer k c] is what the model returns to its call number
    [k] on the chunk [c]. *)
Definition placed (answer : nat -> list Sample -> Transcription)
    (audio_data : list Sample) (i : Z) : list Segment :=
  map (adjusted_segment (inject_Z (chunk_length * i)))
      (segments (answer (Z.to_nat i) (chunk_audio audio_data i))).

(** The segments of all the windows passed to the model, each in its place. *)
Definition timeline (answer : nat -> list Sample -> Transcription)
    (audio_data : list Sample) : list Segment :=
  flat_map (placed answer audio_data) (kept_windows audio_data).

End Timeline.

Arguments kept_windows {Sample}.
Arguments placed {Sample}.
Arguments timeline {Sample}.

End Stitching.

(* ===================================================================== *)
(** * Further definitions: decimal text *)
(* ===================================================================== *)

Module Formats.
Import Py Voice.

(** The characters of a decimal numeral. *)
Fixpoint uint_chars (d : Decimal.uint) : str :=
  match d with
  | Decimal.Nil => []
  | Decimal.D0 l => 48 :: uint_chars l
  | Decimal.D1 l => 49 :: uint_chars l
  | Decimal.D2 l => 50 :: uint_chars l
  | Decimal.D3 l => 51 :: uint_chars l
  | Decimal.D4 l => 52 :: uint_chars l
  | Decimal.D5 l => 53 :: uint_chars l
  | Decimal.D6 l => 54 :: uint_chars l
  | Decimal.D7 l => 55 :: uint_chars l
  | Decimal.D8 l => 56 :: uint_chars l
  | Decimal.D9 l => 57 :: uint_chars l
  end.

(** The value of a decimal numeral read after the value [acc]. *)
Fixpoint uint_value (acc : Z) (d : Decimal.uint) : Z :=
  match d with
  | Decimal.Nil => acc
  | Decimal.D0 l => uint_value (acc * 10 + 0) l
  | Decimal.D1 l => uint_value (acc * 10 + 1) l
  | Decimal.D2 l => uint_value (acc * 10 + 2) l
  | Decimal.D3 l => uint_value (acc * 10 + 3) l
  | Decimal.D4 l => uint_value (acc * 10 + 4) l
  | Decimal.D5 l => uint_value (acc * 10 + 5) l
  | Decimal.D6 l => uint_value (acc * 10 + 6) l
  | Decimal.D7 l => uint_value (acc * 10 + 7) l
  | Decimal.D8 l => uint_value (acc * 10 + 8) l
  | Decimal.D9 l => uint_value (acc * 10 + 9) l
  end.

(** The number of decimal digits of an integer: the length of [str(abs(n))]. *)
Definition decimal_digits (n : Z) : Z := len (str_of_int (Z.abs n)).

(** A character of the text of an integer: the minus sign or an ASCII digit. *)
Definition numeral_char (c : Z) : bool :=
  (c =? 45) || ((48 <=? c) && (c <=? 57)).

(** The line [save_transcript] writes for a segment, without its newline. *)
Definition segment_line (segment : Segment) : str :=
  py "[" ++ format_time (start segment) ++ py " - "
  ++ format_time (end_ segment) ++ py "] " ++ seg_text segment.

(** Equality of two strings, as a test. *)
Definition str_eqb (a b : str) : bool := bool_decide (a = b).

End Formats.

(* ===================================================================== *)
(** * webpage/streamlit_voice_app.py *)
(* ===================================================================== *)

Module Page.
Import Py Voice Graph Formats.

(** [hay.startswith(needle)]. *)
Fixpoint starts_with (needle hay : str) : bool :=
  match needle, hay with
  | [], _ => true
  | _ :: _, [] => false
  | a :: n, b :: h => (a =? b) && starts_with n h
  end.

(** [needle in hay]. *)
Fixpoint contains (needle hay : str) : bool :=
  starts_with needle hay
  || match hay with
     | [] => false
     | _ :: t => contains needle t
     end.

(** The three boxes of the results page: [st.error] ("보이스피싱 의심"),
    [st.success] ("정상 통화"), [st.info] ("분석 결과"). *)
Inductive Banner : Type := Suspect | Normal | Neutral.

(** The [if] / [elif] / [else] on the keywords of the analysis text. *)
Definition analysis_banner (analysis_text : str) : Banner :=
  if contains (py "보이스피싱") analysis_text
     && (contains (py "의심") analysis_text || contains (py "위험") analysis_text)
  then Suspect
  else if contains (py "정상") analysis_text || contains (py "안전") analysis_text
  then Normal
  else Neutral.

(** The exceptions of the statistics: [ValueError] of [max] on an empty
    list, [ZeroDivisionError]. *)
Inductive StatError : Type := MaxOfEmpty | ZeroDivision.

(** [max(l)]: the first greatest element. *)
Definition py_max (l : list Q) : Outcome StatError Q :=
  match l with
  | [] => Raised MaxOfEmpty
  | x :: t => Returned (fold_left (fun acc y => if Qltb acc y then y else acc) t x)
  end.

(** [sum(l)] for a list of floats: the additions from left to right, from
    the integer 0 (as CPython 3.11 adds them). *)
Definition py_sum (l : list Q) : Q := fold_left Float.add l 0%Q.

(** [max([seg["end"] for seg in result["segments"]])]. *)
Definition total_duration (segs : list Segment) : Outcome StatError Q :=
  py_max (map end_ segs).

(** [sum([seg["end"] - seg["start"] ...]) / len(result["segments"])]: float
    differences, their float sum, and its float quotient by the length. *)
Definition avg_duration (segs : list Segment) : Outcome StatError Q :=
  if len segs =? 0 then Raised ZeroDivision
  else Returned (Float.div
                   (py_sum (map (fun seg => Float.sub (end_ seg) (start seg)) segs))
                   (Float.of_int (len segs))).

(** The four figures of the statistics, computed in the order of the page:
    total length, number of segments, mean segment length, number of
    characters. *)
Definition statistics (text : str) (segs : list Segment)
  : Outcome StatError (Q * Z * Q * Z) :=
  bind (total_duration segs) (fun total =>
  bind (avg_duration segs) (fun avg =>
  Returned (total, len segs, avg, len text))).

(** The text stored when the analysis raises. *)
Definition analysis_unavailable : str := py "보이스피싱 분석을 수행할 수 없습니다.".

(** An uploaded file: its name and its bytes. *)
Record Upload : Type := { name : str; getvalue : list Z }.

(** [analyze_voice_phishing]: a detector is built, then [analyze_text]. *)
Definition analyze_voice_phishing (detector : Outcome Graph.Exn Capabilities)
    (text : str) : Outcome Graph.Exn str :=
  bind detector (fun caps => analyze_text caps text).

(** What the page holds after a click on the button: a stored result, the
    message of a failed conversion, or the message of an exception. *)
Inductive PageState : Type :=
| Processed (text : str) (segments : list Segment) (phishing_analysis : str)
| ConversionFailed (error : str)
| PageError (error : str).

(** What leaves the script uncaught: an exception that is no instance of
    [Exception], raised by the conversion or by the analysis. *)
Inductive Interrupt : Type :=
| ConversionInterrupt (e : Voice.Exn)
| AnalysisInterrupt (e : Graph.Exn).

(** The further services of the page: [load_model] (the converter is built),
    [os.path.splitext(name)[1]], the write of the uploaded bytes, and the
    construction of the detector. *)
Record PageServices : Type := {
  load_model : Outcome Voice.Exn unit;
  splitext_ext : str -> str;
  write_bytes : str -> list Z -> Outcome Voice.Exn unit;
  detector : Outcome Graph.Exn Capabilities
}.

Section Processing.

Variable Sample : Type.
Variable sv : Services Sample.

Variable ps : PageServices.

(** [save_audio_file]: the file is stored in src/audio under the time stamp
    and the extension of the uploaded name. *)
Definition save_audio_file (uploaded_file : Upload) : Outcome Voice.Exn (str * str) :=
  let audio_dir := py "src/audio" in
  bind (makedirs sv audio_dir) (fun _ =>
  let base_filename :=
    now_stamp sv ++ py "." ++ tl (splitext_ext ps (name uploaded_file)) in
  let audio_path := path_join sv audio_dir base_filename in
  bind (write_bytes ps audio_path (getvalue uploaded_file)) (fun _ =>
  Returned (audio_path, base_filename))).

(** The processing started by the button.  The inner [except Exception]
    stores the fixed text in place of the analysis; the outer one shows the
    message of the exception; an exception that is no instance of
    [Exception] leaves the script.  A result that is stored is shown by
    the next run of the script, which [st.rerun()] starts. *)
Definition process_upload (uploaded_file : Upload) (language : str)
  : Outcome Interrupt PageState :=
  match
    bind (load_model ps) (fun _ =>
    bind (save_audio_file uploaded_file) (fun saved =>
    process_call_recording sv (fst saved) None
      (if str_eqb language (py "auto") then None else Some language)
      (Some (snd saved))))
  with
  | Raised e =>
    if is_Exception (exn_class e) then Returned (PageError (message e))
    else Raised (ConversionInterrupt e)
  | Returned (CallFailed error) => Returned (ConversionFailed error)
  | Returned (CallOk text segs _ _) =>
    match analyze_voice_phishing (detector ps) text with
    | Returned phishing_analysis => Returned (Processed text segs phishing_analysis)
    | Raised e =>
      if is_Exception e then Returned (Processed text segs analysis_unavailable)
      else Raised (AnalysisInterrupt e)
    end
  end.

End Processing.

Arguments save_audio_file {Sample}.
Arguments process_upload {Sample}.

(** What the results part of the page computes from a stored result: the
    box of the analysis and the statistics. *)
Definition results_view (st : PageState)
  : option (Banner * Outcome StatError (Q * Z * Q * Z)) :=
  match st with
  | Processed text segs phishing_analysis =>
    Some (analysis_banner phishing_analysis, statistics text segs)
  | _ => None
  end.

End Page.

(* ===================================================================== *)
(** * Further concrete requests *)
(* ===================================================================== *)

Module Requests.
Import Py Voice Scenario.

(** Exactly 30 seconds of silence at 16 kHz. *)
Definition audio30 : list Z := repeat 0 (Z.to_nat (30 * 16000)).

(** A model that returns the same answer to every call. *)
Definition always_answers (r : Transcription) (k : nat) (chunk : list Z)
    (language : option str) : Outcome Voice.Exn Transcription :=
  Returned r.

(** Services in which the file may be missing and decodes to a given buffer. *)
Definition services_on (file_exists : bool) (audio : list Z)
    (model : nat -> list Z -> option str -> Outcome Voice.Exn Transcription)
  : Services Z :=
  {| path_exists := fun _ => file_exists;
     librosa_load := fun _ => Returned audio;
     model_transcribe := model;
     makedirs := fun _ => Returned tt;
     splitext_root := fun p => p;
     path_join := fun a b => a ++ [47] ++ b;
     now_stamp := py "20250101_000000";
     write_text := fun _ _ => Returned tt |}.

End Requests.

(* ===================================================================== *)
(** * Concrete uploads *)
(* ===================================================================== *)

Module Uploads.
Import Py Voice Graph Page Scenario.

(** An uploaded recording. *)
Definition recording : Upload := {| name := py "call.wav"; getvalue := [82; 73; 70; 70] |}.

(** Page services whose detector cannot be built. *)
Definition page_without_detector : PageServices :=
  {| load_model := Returned tt;
     splitext_ext := fun _ => py ".wav";
     write_bytes := fun _ _ => Returned tt;
     detector := Raised "OpenAIError"%string |}.

End Uploads.
(* ===================================================================== *)
(** * Properties of float rounding *)
(* ===================================================================== *)

Section FloatProperties.
Import Float.

Lemma pow2_pos (e : Z) : (0 < pow2 e)%Q.
Proof. apply Qpower_0_lt. reflexivity. Qed.

Lemma pow2_le (a b : Z) : a <= b -> (pow2 a <= pow2 b)%Q.
Proof. intros H. apply Qpower_le_compat_l; [exact H|]. discriminate. Qed.

Lemma pow2_lt_inv (a b : Z) : (pow2 a < pow2 b)%Q -> a < b.
Proof. intros H. apply (Qpower_lt_compat_l_inv 2); [exact H|reflexivity]. Qed.

Lemma pow2_plus (a b : Z) : (pow2 (a + b) == pow2 a * pow2 b)%Q.
Proof. apply Qpower_plus. discriminate. Qed.

Lemma pow2_Z (n : Z) : 0 <= n -> (inject_Z (2 ^ n) == pow2 n)%Q.
Proof. intros H. apply (Zpower_Qpower 2 n H). Qed.

Lemma log2_bounds (n : Z) :
  0 < n ->
  (pow2 (Z.log2 n) <= inject_Z n)%Q /\ (inject_Z n < pow2 (Z.log2 n + 1))%Q.
Proof.
  intros Hn. destruct (Z.log2_spec n Hn) as [Hlo Hhi].
  pose proof (Z.log2_nonneg n) as H0.
  rewrite <- !pow2_Z by lia. rewrite <- Zle_Qle, <- Zlt_Qlt.
  replace (Z.log2 n + 1) with (Z.succ (Z.log2 n)) by lia. auto.
Qed.

Lemma exponent_spec (x : Q) :
  (0 < x)%Q -> (pow2 (exponent x) <= x)%Q /\ (x < pow2 (exponent x + 1))%Q.
Proof.
  intros Hx. unfold exponent.
  destruct x as [n d]. cbn [Qnum Qden].
  assert (Hn : 0 < n) by (unfold Qlt in Hx; simpl in Hx; lia).
  destruct (log2_bounds n Hn) as [Hn1 Hn2].
  destruct (log2_bounds (Z.pos d) ltac:(lia)) as [Hd1 Hd2].
  set (a := Z.log2 n) in *. set (b := Z.log2 (Z.pos d)) in *.
  assert (Ex : (n # d == inject_Z n / inject_Z (Z.pos d))%Q) by apply Qmake_Qdiv.
  assert (HD : (0 < inject_Z (Z.pos d))%Q) by (rewrite <- (Zlt_Qlt 0); lia).
  assert (HN : (0 < inject_Z n)%Q) by (rewrite <- (Zlt_Qlt 0); lia).
  set (N := inject_Z n) in *. set (D := inject_Z (Z.pos d)) in *.
  set (x := (n # d)%Q) in *.
  assert (ExD : (x * D == N)%Q).
  { rewrite Ex. field. intros E. rewrite E in HD. discriminate HD. }
  pose proof (pow2_pos b) as Hb. pose proof (pow2_pos (a - b - 1)) as Hlo.
  pose proof (pow2_pos (a - b + 1)) as Hhi.
  assert (E1 : (pow2 (a - b + 1) * pow2 b == pow2 (a + 1))%Q).
  { rewrite <- pow2_plus. replace (a - b + 1 + b) with (a + 1) by lia. reflexivity. }
  assert (E2 : (pow2 (a - b - 1) * pow2 (b + 1) == pow2 a)%Q).
  { rewrite <- pow2_plus. replace (a - b - 1 + (b + 1)) with a by lia. reflexivity. }
  assert (Hup : (x < pow2 (a - b + 1))%Q) by nra.
  assert (Hdown : (pow2 (a - b - 1) <= x)%Q).
  { pose proof (pow2_pos (b + 1)). nra. }
  destruct (Qle_bool (pow2 (a - b)) x) eqn:Hc.
  - apply Qle_bool_iff in Hc. split; [exact Hc|exact Hup].
  - split; [exact Hdown|].
    replace (a - b - 1 + 1) with (a - b) by lia.
    apply Qnot_le_lt. intros H. apply Qle_bool_iff in H. congruence.
Qed.

Lemma nearest_even_bounds (t : Q) :
  Qfloor t <= nearest_even t <= Qfloor t + 1.
Proof.
  unfold nearest_even. destruct (_ ?= _)%Q; [destruct (Z.even _)|..]; lia.
Qed.

Lemma nearest_even_ge (n : Z) (t : Q) : (inject_Z n <= t)%Q -> n <= nearest_even t.
Proof.
  intros H. apply Qfloor_resp_le in H. rewrite Qfloor_Z in H.
  pose proof (nearest_even_bounds t). lia.
Qed.

Lemma nearest_even_le (n : Z) (t : Q) : (t <= inject_Z n)%Q -> nearest_even t <= n.
Proof.
  intros H. pose proof (nearest_even_bounds t) as Hb.
  pose proof (Qfloor_le t) as Hf.
  destruct (Z_lt_le_dec (Qfloor t) n) as [Hlt|Hge]; [lia|].
  assert (E : Qfloor t = n).
  { apply Qfloor_resp_le in H. rewrite Qfloor_Z in H. lia. }
  unfold nearest_even. rewrite E.
  assert (Hlt : (t - inject_Z n < 1 # 2)%Q) by lra.
  rewrite Qlt_alt in Hlt. rewrite Hlt. lia.
Qed.

Lemma nearest_even_mono (t t' : Q) :
  (t <= t')%Q -> nearest_even t <= nearest_even t'.
Proof.
  intros H. pose proof (Qfloor_resp_le _ _ H) as Hf.
  pose proof (nearest_even_bounds t) as Hb. pose proof (nearest_even_bounds t') as Hb'.
  destruct (Z.eq_dec (Qfloor t) (Qfloor t')) as [E|Hne]; [|lia].
  unfold nearest_even. rewrite <- E.
  destruct (t - inject_Z (Qfloor t) ?= 1 # 2)%Q eqn:C;
    destruct (t' - inject_Z (Qfloor t) ?= 1 # 2)%Q eqn:C';
    try (destruct (Z.even (Qfloor t))); try lia;
    exfalso;
    repeat match goal with
           | H : (_ ?= _)%Q = Eq |- _ => apply Qeq_alt in H
           | H : (_ ?= _)%Q = Lt |- _ => apply Qlt_alt in H
           | H : (_ ?= _)%Q = Gt |- _ => apply Qgt_alt in H
           end; lra.
Qed.

Lemma round_pos_mono (x y : Q) :
  (0 < x)%Q -> (x <= y)%Q -> (round_pos x <= round_pos y)%Q.
Proof.
  intros Hx Hxy. assert (Hy : (0 < y)%Q) by lra.
  destruct (exponent_spec x Hx) as [Hx1 Hx2].
  destruct (exponent_spec y Hy) as [Hy1 Hy2].
  assert (He : exponent x <= exponent y).
  { assert (pow2 (exponent x) < pow2 (exponent y + 1))%Q by lra.
    apply pow2_lt_inv in H. lia. }
  unfold round_pos.
  set (ex := Z.max (exponent x) (-1022)). set (ey := Z.max (exponent y) (-1022)).
  pose proof (pow2_pos (ex - 52)) as Hux. pose proof (pow2_pos (ey - 52)) as Huy.
  destruct (Z.eq_dec ex ey) as [E|Hne].
  - rewrite <- E. apply Qmult_le_compat_r; [|lra].
    rewrite <- Zle_Qle. apply nearest_even_mono.
    apply Qmult_le_compat_r; [exact Hxy|].
    apply Qlt_le_weak, Qinv_lt_0_compat, Hux.
  - assert (Hlt : ex < ey) by lia.
    assert (Eey : ey = exponent y) by lia.
    apply Qle_trans with (pow2 (ex + 1)).
    + assert (Hn : nearest_even (x / pow2 (ex - 52)) <= 2 ^ 53).
      { apply nearest_even_le. rewrite (pow2_Z 53) by lia.
        apply Qle_shift_div_r; [exact Hux|].
        rewrite <- pow2_plus. replace (53 + (ex - 52)) with (ex + 1) by lia.
        apply Qle_trans with (pow2 (exponent x + 1)); [lra|].
        apply pow2_le. lia. }
      rewrite Zle_Qle in Hn. rewrite (pow2_Z 53) in Hn by lia.
      assert (E53 : (pow2 (ex + 1) == pow2 53 * pow2 (ex - 52))%Q).
      { rewrite <- pow2_plus. replace (53 + (ex - 52)) with (ex + 1) by lia. reflexivity. }
      rewrite E53. apply Qmult_le_compat_r; [exact Hn|lra].
    + apply Qle_trans with (pow2 ey); [apply pow2_le; lia|].
      assert (Hn : 2 ^ 52 <= nearest_even (y / pow2 (ey - 52))).
      { apply nearest_even_ge. rewrite (pow2_Z 52) by lia.
        apply Qle_shift_div_l; [exact Huy|].
        rewrite <- pow2_plus. replace (52 + (ey - 52)) with ey by lia.
        rewrite Eey. exact Hy1. }
      rewrite Zle_Qle in Hn. rewrite (pow2_Z 52) in Hn by lia.
      assert (E52 : (pow2 ey == pow2 52 * pow2 (ey - 52))%Q).
      { rewrite <- pow2_plus. replace (52 + (ey - 52)) with ey by lia. reflexivity. }
      rewrite E52 at 1. apply Qmult_le_compat_r; [exact Hn|lra].
Qed.

Lemma round_pos_nonneg (x : Q) : (0 < x)%Q -> (0 <= round_pos x)%Q.
Proof.
  intros Hx. unfold round_pos.
  set (e := Z.max (exponent x) (-1022)).
  pose proof (pow2_pos (e - 52)) as Hu.
  apply Qmult_le_0_compat; [|lra].
  rewrite <- (Zle_Qle 0). apply nearest_even_ge.
  apply Qle_shift_div_l; [exact Hu|].
  change (inject_Z 0) with 0%Q. lra.
Qed.

(** Rounding is monotone. *)
Lemma round_mono (x y : Q) : (x <= y)%Q -> (round x <= round y)%Q.
Proof.
  intros H. unfold round.
  destruct (x ?= 0)%Q eqn:Cx; destruct (y ?= 0)%Q eqn:Cy;
    repeat match goal with
           | H : (_ ?= _)%Q = Eq |- _ => apply Qeq_alt in H
           | H : (_ ?= _)%Q = Lt |- _ => apply Qlt_alt in H
           | H : (_ ?= _)%Q = Gt |- _ => apply Qgt_alt in H
           end; try lra.
  - apply round_pos_nonneg, Cy.
  - pose proof (round_pos_nonneg (- x) ltac:(lra)). lra.
  - assert (round_pos (- y) <= round_pos (- x))%Q by (apply round_pos_mono; lra). lra.
  - pose proof (round_pos_nonneg (- x) ltac:(lra)).
    pose proof (round_pos_nonneg y Cy). lra.
  - apply round_pos_mono; lra.
Qed.

Lemma round_proper (x y : Q) : (x == y)%Q -> (round x == round y)%Q.
Proof.
  intros H. apply Qle_antisym; apply round_mono; rewrite H; apply Qle_refl.
Qed.

Lemma round_0 : (round 0 == 0)%Q.
Proof. reflexivity. Qed.

Lemma round_nonneg (x : Q) : (0 <= x)%Q -> (0 <= round x)%Q.
Proof. intros H. apply (round_mono 0 x H). Qed.

End FloatProperties.

(* ===================================================================== *)
(** * Properties of the score parser and of the risk tiers *)
(* ===================================================================== *)

Section DetectorProperties.
Import Py Detector Spec.

Lemma splitlines_nil_iff (s : str) : splitlines s = [] <-> s = [].
Proof.
  split; [|intros ->; reflexivity].
  destruct s as [|c t]; [reflexivity|]. simpl.
  destruct (is_linebreak c).
  - destruct t as [|d t']; [discriminate|]. destruct (_ && _); discriminate.
  - destruct (splitlines t); discriminate.
Qed.

(** The first element of [splitlines] is the text before the first line
    boundary. *)
Lemma splitlines_head (s : str) :
  s <> [] -> exists ls, splitlines s = take_while not_linebreak s :: ls.
Proof.
  induction s as [|c t IH]; [congruence|intros _].
  simpl. unfold not_linebreak at 1. destruct (is_linebreak c) eqn:Hc; simpl.
  - destruct t as [|d t']; [eauto|]. destruct (_ && _); eauto.
  - destruct t as [|d t'].
    + simpl. eauto.
    + destruct IH as [ls Hls]; [congruence|]. rewrite Hls. eauto.
Qed.

Lemma getitem_splitlines_0 (raw : str) :
  getitem (splitlines raw) 0 =
  match first_line raw with
  | Some line => Returned line
  | None => Raised IndexError
  end.
Proof.
  destruct raw as [|c t]; [reflexivity|].
  destruct (splitlines_head (c :: t)) as [ls Hls]; [congruence|].
  rewrite Hls. reflexivity.
Qed.

(** [split] cuts at every separator: its first piece is the text before the
    first separator, the rest is the split of what follows it. *)
Lemma split_unfold (line : str) :
  split 58 line =
  take_while not_colon line ::
  match drop_while not_colon line with
  | [] => []
  | _ :: value => split 58 value
  end.
Proof.
  induction line as [|c t IH]; [reflexivity|].
  simpl. unfold not_colon at 1 3. destruct (c =? 58); simpl; [reflexivity|].
  rewrite IH. reflexivity.
Qed.

Lemma getitem_split_1 (line : str) :
  getitem (split 58 line) 1 =
  match score_field line with
  | Some field => Returned field
  | None => Raised IndexError
  end.
Proof.
  rewrite split_unfold. unfold score_field, after_first_colon.
  destruct (drop_while not_colon line) as [|c value]; [reflexivity|].
  rewrite split_unfold. reflexivity.
Qed.

(** The parser, step by step: first line, field after the first colon,
    [int]. *)
Lemma risk_score_unfold (raw : str) :
  risk_score raw =
  match first_line raw with
  | None => Raised IndexError
  | Some line =>
    match score_field line with
    | None => Raised IndexError
    | Some field => int field
    end
  end.
Proof.
  unfold risk_score. rewrite getitem_splitlines_0.
  destruct (first_line raw) as [line|]; [|reflexivity]. simpl.
  rewrite getitem_split_1. destruct (score_field line); reflexivity.
Qed.

Lemma take_while_app_stop (p : Z -> bool) (l : str) (c : Z) (rest : str) :
  forallb p l = true -> p c = false -> take_while p (l ++ c :: rest) = l.
Proof.
  intros Hl Hc. induction l as [|a l IH]; simpl in *.
  - rewrite Hc. reflexivity.
  - apply andb_prop in Hl as [Ha Hl]. rewrite Ha, IH; auto.
Qed.

Lemma first_line_newline (l rest : str) :
  forallb not_linebreak l = true -> first_line (l ++ 10 :: rest) = Some l.
Proof.
  intros Hl. unfold first_line.
  destruct (l ++ 10 :: rest) eqn:E; [destruct l; discriminate|].
  rewrite <- E. f_equal. apply take_while_app_stop; auto.
Qed.

(** ** [int] accepts exactly the integer literals *)

Lemma decimal_zeros_checked :
  forallb (fun z => forallb (fun k => digit_facts (z + k)) [0; 1; 2; 3; 4; 5; 6; 7; 8; 9])
          decimal_zeros = true.
Proof. vm_compute. reflexivity. Qed.

Lemma decimal_facts (c d : Z) :
  decimal c = Some d ->
  int_space c = false /\ c <> 95 /\ c <> 43 /\ c <> 45.
Proof.
  unfold decimal. destruct (find _ decimal_zeros) as [z|] eqn:Hf; [|discriminate].
  intros _. apply find_some in Hf as [Hin Hz].
  apply andb_prop in Hz as [H1 H2].
  apply Z.leb_le in H1. apply Z.ltb_lt in H2.
  pose proof decimal_zeros_checked as Hall.
  rewrite forallb_forall in Hall. specialize (Hall z Hin).
  rewrite forallb_forall in Hall.
  assert (Hk : In (c - z) [0; 1; 2; 3; 4; 5; 6; 7; 8; 9]) by (simpl; lia).
  specialize (Hall _ Hk). replace (z + (c - z)) with c in Hall by lia.
  unfold digit_facts in Hall.
  repeat (apply andb_prop in Hall as [Hall ?]).
  repeat match goal with
         | H : negb _ = true |- _ => apply negb_true_iff in H
         end.
  repeat split; try (apply Z.eqb_neq; assumption). assumption.
Qed.

Lemma int_space_not_decimal (c : Z) : int_space c = true -> decimal c = None.
Proof.
  intros Hc. destruct (decimal c) as [d|] eqn:Hd; [|reflexivity].
  apply decimal_facts in Hd as [Hd _]. congruence.
Qed.

Lemma int_space_not_underscore (c : Z) : int_space c = true -> (c =? 95) = false.
Proof.
  intros Hc. destruct (Z.eqb_spec c 95) as [->|]; [discriminate Hc|reflexivity].
Qed.

Lemma int_digits_spaces (acc n : Z) (ws : str) :
  forallb int_space ws = true -> int_digits acc n ws = Some (acc, n).
Proof.
  destruct ws as [|c t]; [reflexivity|]. intros Hws.
  pose proof Hws as Hws'. simpl in Hws'. apply andb_prop in Hws' as [Hc _].
  unfold int_digits; fold int_digits.
  rewrite (int_space_not_decimal _ Hc), (int_space_not_underscore _ Hc), Hws.
  reflexivity.
Qed.

Lemma Digits_nonempty (body : str) (v n : Z) :
  Digits body v n -> exists c t d, body = c :: t /\ decimal c = Some d.
Proof.
  induction 1 as [c d Hd | s v n c d _ (c0 & t0 & d0 & -> & H0) _
                 | s v n c d _ (c0 & t0 & d0 & -> & H0) _]; simpl; eauto.
Qed.

Lemma scan_digits (body : str) (v n : Z) :
  Digits body v n -> forall rest, scan (body ++ rest) = int_digits v n rest.
Proof.
  induction 1 as [c d Hd | s v n c d Hs IH Hd | s v n c d Hs IH Hd]; intros rest.
  - simpl. rewrite Hd. reflexivity.
  - rewrite <- app_assoc. rewrite IH. simpl. rewrite Hd. reflexivity.
  - rewrite <- app_assoc. rewrite IH. simpl.
    destruct (decimal 95) eqn:H95; [discriminate H95|].
    rewrite Hd. reflexivity.
Qed.

Lemma int_digits_sound (k : nat) :
  forall (s : str) (acc n v m : Z) (pre : str),
    (length s <= k)%nat ->
    int_digits acc n s = Some (v, m) ->
    Digits pre acc n ->
    exists body ws,
      pre ++ s = body ++ ws /\ Digits body v m /\ forallb int_space ws = true.
Proof.
  induction k as [k IH] using lt_wf_ind.
  intros s acc n v m pre Hk Hs Hpre.
  destruct s as [|c t].
  - simpl in Hs. injection Hs as <- <-. exists pre, []. auto.
  - unfold int_digits in Hs; fold int_digits in Hs.
    destruct (decimal c) as [d|] eqn:Hd.
    + destruct (IH (length t) ltac:(simpl in Hk; lia) t _ _ _ _ (pre ++ [c])
                  (Nat.le_refl _) Hs (Digits_digit _ _ _ _ _ Hpre Hd))
        as (body & ws & E & Hb & Hw).
      exists body, ws. rewrite <- E, <- app_assoc. auto.
    + destruct (Z.eqb_spec c 95) as [->|Hne].
      * destruct t as [|c' t']; [discriminate|].
        destruct (decimal c') as [d|] eqn:Hd'; [|discriminate].
        destruct (IH (length t') ltac:(simpl in Hk; lia) t' _ _ _ _ (pre ++ [95; c'])
                    (Nat.le_refl _) Hs (Digits_underscore _ _ _ _ _ Hpre Hd'))
          as (body & ws & E & Hb & Hw).
        exists body, ws. rewrite <- E, <- app_assoc. auto.
      * destruct (forallb int_space (c :: t)) eqn:Hw; [|discriminate].
        injection Hs as <- <-. exists pre, (c :: t). auto.
Qed.

Lemma drop_while_split (p : Z -> bool) (s : str) :
  s = take_while p s ++ drop_while p s /\ forallb p (take_while p s) = true.
Proof.
  induction s as [|c t [IH1 IH2]]; [auto|]. simpl.
  destruct (p c) eqn:Hc; simpl; [|auto].
  rewrite Hc, IH2. split; [f_equal; exact IH1|reflexivity].
Qed.

Lemma drop_while_app_stop (p : Z -> bool) (ws : str) (c : Z) (rest : str) :
  forallb p ws = true -> p c = false -> drop_while p (ws ++ c :: rest) = c :: rest.
Proof.
  intros Hws Hc. induction ws as [|a ws IH]; simpl in *.
  - rewrite Hc. reflexivity.
  - apply andb_prop in Hws as [Ha Hws]. rewrite Ha. auto.
Qed.

Lemma int_sound (s : str) (n : Z) : int s = Returned n -> IntLiteral s n.
Proof.
  unfold int. intros H.
  destruct (drop_while_split int_space s) as [Es Hws1].
  set (s1 := drop_while int_space s) in *.
  set (ws1 := take_while int_space s) in *.
  assert (Hparse : exists sign sg c t d v m,
             s1 = sign ++ c :: t /\ Sign sign sg /\ decimal c = Some d /\
             int_digits d 1 t = Some (v, m) /\ m <= int_max_str_digits /\ n = sg * v).
  { assert (Hfin : forall sg c t,
               match (c :: t : str) with
               | [] => Raised ValueError
               | c :: t =>
                 match decimal c with
                 | None => Raised ValueError
                 | Some d =>
                   match int_digits d 1 t with
                   | None => Raised ValueError
                   | Some (v, n) =>
                     if n >? int_max_str_digits then Raised ValueError
                     else Returned (sg * v)
                   end
                 end
               end = Returned n ->
               exists d v m, decimal c = Some d /\ int_digits d 1 t = Some (v, m)
                             /\ m <= int_max_str_digits /\ n = sg * v).
    { intros sg c t Hc.
      destruct (decimal c) as [d|] eqn:Hd; [|discriminate].
      destruct (int_digits d 1 t) as [[v m]|] eqn:Hi; [|discriminate].
      destruct (Z.gtb_spec m int_max_str_digits); [discriminate|].
      injection Hc as <-. exists d, v, m. repeat split; auto. }
    destruct s1 as [|c t]; [discriminate|].
    destruct (Z.eqb_spec c 43) as [->|H43].
    - destruct t as [|c' t']; [discriminate|].
      destruct (Hfin _ _ _ H) as (d & v & m & ? & ? & ? & ?).
      exists [43], 1, c', t', d, v, m. repeat split; auto. constructor.
    - destruct (Z.eqb_spec c 45) as [->|H45].
      + destruct t as [|c' t']; [discriminate|].
        destruct (Hfin _ _ _ H) as (d & v & m & ? & ? & ? & ?).
        exists [45], (-1), c', t', d, v, m. repeat split; auto. constructor.
      + destruct (Hfin _ _ _ H) as (d & v & m & ? & ? & ? & ?).
        exists [], 1, c, t, d, v, m. repeat split; auto. constructor. }
  destruct Hparse as (sign & sg & c & t & d & v & m & E1 & Hsign & Hd & Hdig & Hm & ->).
  destruct (int_digits_sound (length t) t d 1 v m [c] (Nat.le_refl _) Hdig
              (Digits_one _ _ Hd)) as (body & ws2 & E2 & Hbody & Hws2).
  rewrite Es, E1. change (c :: t) with ([c] ++ t). rewrite E2.
  apply IntLiteral_intro with (n := m); auto.
Qed.

Lemma int_complete (s : str) (n : Z) : IntLiteral s n -> int s = Returned n.
Proof.
  intros [ws1 sign sg body v m ws2 Hws1 Hsign Hbody Hm Hws2].
  destruct (Digits_nonempty _ _ _ Hbody) as (c & t & d & Eb & Hd).
  destruct (decimal_facts _ _ Hd) as (Hsp & H95 & H43 & H45).
  pose proof (scan_digits _ _ _ Hbody ws2) as Hscan.
  rewrite (int_digits_spaces _ _ _ Hws2) in Hscan.
  rewrite Eb in Hscan. simpl in Hscan. rewrite Hd in Hscan.
  assert (Hfin : forall sg',
             match (body ++ ws2 : str) with
             | [] => Raised ValueError
             | c :: t =>
               match decimal c with
               | None => Raised ValueError
               | Some d =>
                 match int_digits d 1 t with
                 | None => Raised ValueError
                 | Some (v, n) =>
                   if n >? int_max_str_digits then Raised ValueError
                   else Returned (sg' * v)
                 end
               end
             end = Returned (sg' * v)).
  { intros sg'. rewrite Eb. simpl. rewrite Hd, Hscan.
    destruct (Z.gtb_spec m int_max_str_digits); [lia|reflexivity]. }
  unfold int.
  destruct Hsign; simpl app.
  - rewrite Eb. simpl app.
    rewrite (drop_while_app_stop int_space ws1 c (t ++ ws2) Hws1 Hsp).
    destruct (Z.eqb_spec c 43); [congruence|].
    destruct (Z.eqb_spec c 45); [congruence|].
    specialize (Hfin 1). rewrite Eb in Hfin. exact Hfin.
  - rewrite (drop_while_app_stop int_space ws1 43 (body ++ ws2) Hws1 eq_refl).
    simpl. apply Hfin.
  - rewrite (drop_while_app_stop int_space ws1 45 (body ++ ws2) Hws1 eq_refl).
    simpl. apply (Hfin (-1)).
Qed.

Lemma int_literal_iff (s : str) (n : Z) : int s = Returned n <-> IntLiteral s n.
Proof. split; [apply int_sound|apply int_complete]. Qed.

Lemma int_raises_ValueError (s : str) :
  (forall n, ~ IntLiteral s n) -> int s = Raised ValueError.
Proof.
  intros Hno. destruct (int s) as [n|e] eqn:E.
  - exfalso. apply (Hno n), int_sound, E.
  - destruct e; [|reflexivity].
    exfalso. revert E. unfold int.
    destruct (match drop_while int_space s with
              | [] => (1, drop_while int_space s)
              | c :: t => _
              end) as [sg s2].
    destruct s2 as [|c t]; [discriminate|].
    destruct (decimal c); [|discriminate].
    destruct (int_digits _ _ _) as [[v m]|]; [|discriminate].
    destruct (_ >? _); discriminate.
Qed.

Lemma first_line_none_iff (raw : str) : first_line raw = None <-> raw = [].
Proof. destruct raw; simpl; split; congruence. Qed.

Lemma drop_while_nil_iff (p : Z -> bool) (s : str) :
  drop_while p s = [] <-> forallb p s = true.
Proof.
  induction s as [|c t IH]; simpl; [tauto|].
  destruct (p c); simpl; [exact IH|]. split; discriminate.
Qed.

Lemma score_field_none_iff (line : str) : score_field line = None <-> ~ In 58 line.
Proof.
  unfold score_field, after_first_colon.
  destruct (drop_while not_colon line) as [|c value] eqn:E.
  - split; [intros _ Hin|reflexivity].
    apply drop_while_nil_iff in E. rewrite forallb_forall in E.
    specialize (E _ Hin). discriminate E.
  - split; [discriminate|intros Hno]. exfalso.
    assert (Hall : forallb not_colon line = true).
    { apply forallb_forall. intros x Hx. unfold not_colon.
      destruct (Z.eqb_spec x 58) as [->|]; [contradiction|reflexivity]. }
    apply drop_while_nil_iff in Hall. congruence.
Qed.

(** C7: the tier is a function of the score alone, with inclusive bounds:
    a score of 7 or more is HIGH, a score from 4 to 6 is MEDIUM, a score of 3
    or less is LOW. *)
Theorem risk_tier_bands (score : Z) :
  (7 <= score -> risk_tier score = HIGH) /\
  (4 <= score <= 6 -> risk_tier score = MEDIUM) /\
  (score <= 3 -> risk_tier score = LOW).
Proof.
  unfold risk_tier. repeat split; intros H.
  - destruct (Z.geb_spec score 7); [reflexivity|lia].
  - destruct (Z.geb_spec score 7); [lia|].
    destruct (Z.geb_spec score 4); [reflexivity|lia].
  - destruct (Z.geb_spec score 7); [lia|].
    destruct (Z.geb_spec score 4); [lia|reflexivity].
Qed.

(** C5: for every integer [s] of [0,10], the text whose first line is
    "score: " followed by [s], then a newline and any further text, parses to
    the score [s]. *)
Theorem score_round_trip (s : Z) (rest : str) :
  0 <= s <= 10 ->
  risk_score (py "score: " ++ str_of_int s ++ [10] ++ rest) = Returned s.
Proof.
  intros Hs. rewrite risk_score_unfold.
  rewrite app_assoc. change ([10] ++ rest) with (10 :: rest).
  assert (Hcases : s = 0 \/ s = 1 \/ s = 2 \/ s = 3 \/ s = 4 \/ s = 5 \/ s = 6
                   \/ s = 7 \/ s = 8 \/ s = 9 \/ s = 10) by lia.
  repeat (destruct Hcases as [-> | Hcases]); [..|subst s];
    (rewrite first_line_newline; [|reflexivity]); reflexivity.
Qed.

Lemma score_round_trip_witness :
  0 <= 8 <= 10 /\
  risk_score (py "score: " ++ str_of_int 8 ++ [10] ++ py "한 줄 평가: 위험") = Returned 8.
Proof.
  split; [lia|]. apply (score_round_trip 8). lia.
Defined.

(** C6 (counterexample): on the first line "score: 7:30" the substring after
    the first colon is " 7:30", which is no integer, so [parseJudgment] as
    the specification words it fails; the code reads the field up to the
    second colon and returns 7.  On "score: 15" the code returns 15, outside
    [0,10]. *)
Lemma risk_score_second_colon :
  (parseJudgment (py "score: 7:30") = Raised format_error /\
   risk_score (py "score: 7:30") = Returned 7) /\
  (risk_score (py "score: 15") = Returned 15 /\ ~ 0 <= 15 <= 10).
Proof.
  split; split; try reflexivity. lia.
Qed.

(** C6 (amended): the score is the text between the first colon of the first
    line and the next colon (or the end of the line), read by [int]; the
    parser raises (IndexError, ValueError) and returns no default score when
    the text is empty, when its first line has no colon, or when that field is
    no integer literal; it returns [n] exactly when the field is an integer
    literal denoting [n], of any size. *)
Theorem risk_score_strict (raw : str) :
  (raw = [] -> risk_score raw = Raised IndexError) /\
  (forall line, first_line raw = Some line -> ~ In 58 line ->
                risk_score raw = Raised IndexError) /\
  (forall line field,
      first_line raw = Some line -> score_field line = Some field ->
      (forall n, ~ IntLiteral field n) ->
      risk_score raw = Raised ValueError) /\
  (forall n,
      risk_score raw = Returned n <->
      exists line field,
        first_line raw = Some line /\ score_field line = Some field /\
        IntLiteral field n).
Proof.
  rewrite risk_score_unfold. repeat split.
  - intros ->. reflexivity.
  - intros line Hl Hno. rewrite Hl.
    apply score_field_none_iff in Hno. rewrite Hno. reflexivity.
  - intros line field Hl Hf Hno. rewrite Hl, Hf.
    apply int_raises_ValueError, Hno.
  - intros H. destruct (first_line raw) as [line|]; [|discriminate].
    destruct (score_field line) as [field|] eqn:Hf; [|discriminate].
    exists line, field. split; [reflexivity|]. split; [exact Hf|].
    apply int_sound, H.
  - intros (line & field & -> & -> & Hlit). apply int_complete, Hlit.
Qed.

End DetectorProperties.


(* ===================================================================== *)
(** * Properties of the chunked transcription *)
(* ===================================================================== *)

Section VoiceProperties.
Import Py Voice.

Variable Sample : Type.
Variable sv : Services Sample.
Variable lang : option str.

Implicit Types (audio chunk w : list Sample) (st : LoopState)
  (log : list (list Sample)) (i : Z).

Lemma chunk_samples_eq : chunk_samples = 480000.
Proof. reflexivity. Qed.

Lemma len_nonneg audio : 0 <= len audio.
Proof. unfold len. lia. Qed.

(** ** Windows *)

Lemma len_slice {A} (l : list A) (a b : Z) :
  0 <= a <= b -> b <= len l -> len (slice l a b) = b - a.
Proof.
  unfold len, slice. intros Hab Hb.
  rewrite length_take, length_drop. lia.
Qed.

(** The number of windows is the number of started blocks of
    [chunk_samples] samples. *)
Lemma total_chunks_bounds audio :
  0 < len audio ->
  (total_chunks audio - 1) * chunk_samples < len audio <= total_chunks audio * chunk_samples.
Proof.
  intros Hpos. unfold total_chunks. rewrite chunk_samples_eq.
  pose proof (Z.div_mod (len audio) 480000 ltac:(lia)) as Hdm.
  pose proof (Z.mod_pos_bound (len audio) 480000 ltac:(lia)) as Hm.
  destruct (Z.gtb_spec (len audio mod 480000) 0); lia.
Qed.

Lemma total_chunks_nonneg audio : 0 <= total_chunks audio.
Proof.
  unfold total_chunks. rewrite chunk_samples_eq.
  pose proof (Z.div_pos (len audio) 480000 (len_nonneg audio) ltac:(lia)).
  destruct (_ >? _); lia.
Qed.

Lemma total_chunks_empty audio : len audio = 0 -> total_chunks audio = 0.
Proof. unfold total_chunks. intros ->. reflexivity. Qed.

(** A window inside the buffer holds the samples between its bounds. *)
Lemma len_chunk_audio audio i :
  0 <= i < total_chunks audio ->
  len (chunk_audio audio i) = end_sample audio i - start_sample i
  /\ start_sample i < end_sample audio i
  /\ end_sample audio i <= len audio.
Proof.
  intros Hi.
  assert (Hpos : 0 < len audio).
  { pose proof (len_nonneg audio).
    destruct (Z.eq_dec (len audio) 0) as [E|]; [|lia].
    rewrite (total_chunks_empty _ E) in Hi. lia. }
  pose proof (total_chunks_bounds audio Hpos) as Hb.
  unfold chunk_audio, end_sample, start_sample in *.
  rewrite chunk_samples_eq in *.
  rewrite len_slice; lia.
Qed.

(** Every window but the last is full; the last one is not empty. *)
Lemma len_chunk_audio_full audio i :
  0 <= i < total_chunks audio - 1 -> len (chunk_audio audio i) = chunk_samples.
Proof.
  intros Hi. destruct (len_chunk_audio audio i ltac:(lia)) as (-> & _ & _).
  assert (Hpos : 0 < len audio).
  { pose proof (len_nonneg audio).
    destruct (Z.eq_dec (len audio) 0) as [E|]; [|lia].
    rewrite (total_chunks_empty _ E) in Hi. lia. }
  pose proof (total_chunks_bounds audio Hpos) as Hb.
  unfold end_sample, start_sample. rewrite chunk_samples_eq in *. lia.
Qed.

Lemma len_chunk_audio_le audio i :
  0 <= i < total_chunks audio -> 0 < len (chunk_audio audio i) <= chunk_samples.
Proof.
  intros Hi. destruct (len_chunk_audio audio i Hi) as (-> & H1 & H2).
  unfold end_sample, start_sample in *. rewrite chunk_samples_eq in *. lia.
Qed.

Lemma range_S (n : nat) :
  range (Z.of_nat (S n)) = range (Z.of_nat n) ++ [Z.of_nat n].
Proof.
  unfold range. rewrite !Nat2Z.id. rewrite seq_S, map_app. reflexivity.
Qed.

Lemma range_lookup (n : Z) (k : nat) (i : Z) :
  range n !! k = Some i -> i = Z.of_nat k /\ 0 <= i < n.
Proof.
  unfold range. rewrite list_lookup_fmap.
  destruct (seq 0 (Z.to_nat n) !! k) as [j|] eqn:E; [|discriminate].
  intros [= <-]. apply lookup_seq in E as [-> Hk]. lia.
Qed.

Lemma In_range (n i : Z) : In i (range n) -> 0 <= i < n.
Proof.
  unfold range. rewrite in_map_iff. intros (k & <- & Hk).
  apply in_seq in Hk. lia.
Qed.

Lemma length_range (n : Z) : 0 <= n -> len (range n) = n.
Proof. intros Hn. unfold len, range. rewrite length_map, length_seq. lia. Qed.

(** The windows, put end to end, are the buffer. *)
Lemma concat_windows_upto audio (k : nat) :
  Z.of_nat k <= total_chunks audio ->
  concat (map (chunk_audio audio) (range (Z.of_nat k)))
  = take (Z.to_nat (Z.min (Z.of_nat k * chunk_samples) (len audio))) audio.
Proof.
  induction k as [|k IH]; intros Hk.
  - pose proof (len_nonneg audio).
    replace (Z.to_nat (Z.min (Z.of_nat 0 * chunk_samples) (len audio))) with 0%nat by lia.
    reflexivity.
  - rewrite range_S, map_app, concat_app, IH by lia. simpl concat.
    rewrite app_nil_r.
    destruct (len_chunk_audio audio (Z.of_nat k) ltac:(lia)) as (_ & H1 & H2).
    unfold chunk_audio, slice.
    replace (Z.to_nat (Z.min (Z.of_nat k * chunk_samples) (len audio)))
      with (Z.to_nat (start_sample (Z.of_nat k)))
      by (unfold start_sample, end_sample in *; lia).
    rewrite take_take_drop. f_equal.
    unfold start_sample, end_sample in *. rewrite chunk_samples_eq in *. lia.
Qed.

Lemma concat_windows audio : concat (windows audio) = audio.
Proof.
  unfold windows.
  pose proof (total_chunks_nonneg audio) as Hn.
  rewrite <- (Z2Nat.id (total_chunks audio)) at 1 by lia.
  rewrite concat_windows_upto by lia.
  apply take_ge.
  pose proof (len_nonneg audio) as Hl.
  destruct (Z.eq_dec (len audio) 0) as [E|Hne].
  - unfold len in E. lia.
  - pose proof (total_chunks_bounds audio ltac:(lia)) as Hb.
    rewrite chunk_samples_eq in *. unfold len in *. lia.
Qed.

(** ** The too-short test *)

Lemma Qltb_lt (x y : Q) : Qltb x y = true <-> (x < y)%Q.
Proof.
  unfold Qltb. rewrite Qlt_alt. destruct (x ?= y)%Q; split; congruence.
Qed.

Lemma too_short_iff chunk : too_short chunk = true <-> len chunk < 8000.
Proof.
  unfold too_short. rewrite Qltb_lt. unfold Qlt, sample_rate. simpl. lia.
Qed.

(** The test of the source is the test "shorter than half a second". *)
Lemma duration_lt_half chunk :
  Qltb (duration chunk) 0.5 = too_short chunk.
Proof.
  apply eq_true_iff_eq. rewrite Qltb_lt, too_short_iff.
  unfold Qlt, duration, seconds, sample_rate. simpl. lia.
Qed.

(** ** The loop, iteration by iteration *)

Lemma loop_upto_S audio (k : nat) :
  loop_upto sv lang audio (S k)
  = loop_step sv lang audio (loop_upto sv lang audio k) (Z.of_nat k).
Proof.
  unfold loop_upto. rewrite range_S, fold_left_app. reflexivity.
Qed.

Lemma chunk_loop_upto audio :
  chunk_loop sv lang audio
  = loop_upto sv lang audio (Z.to_nat (total_chunks audio)).
Proof.
  unfold chunk_loop, loop_upto.
  rewrite Z2Nat.id by apply total_chunks_nonneg. reflexivity.
Qed.

Lemma chunk_body_short audio st i log :
  too_short (chunk_audio audio i) = true ->
  chunk_body sv lang audio st i log = (Returned st, log).
Proof. unfold chunk_body. intros ->. reflexivity. Qed.

Lemma chunk_body_returned audio st i log r :
  too_short (chunk_audio audio i) = false ->
  model_transcribe sv (length log) (chunk_audio audio i) lang = Returned r ->
  chunk_body sv lang audio st i log =
  (Returned
     {| full_text := full_text st ++ text_part (Returned r);
        full_segments := full_segments st
                         ++ segments_part (current_time_offset st) (Returned r);
        current_time_offset := seconds (end_sample audio i) |},
   log ++ [chunk_audio audio i]).
Proof.
  unfold chunk_body, transcribe. intros -> ->. simpl.
  destruct (strip (text r)); [rewrite app_nil_r|]; reflexivity.
Qed.

Lemma chunk_body_raised audio st i log e :
  too_short (chunk_audio audio i) = false ->
  model_transcribe sv (length log) (chunk_audio audio i) lang = Raised e ->
  is_Exception (exn_class e) = true ->
  chunk_body sv lang audio st i log = (Returned st, log ++ [chunk_audio audio i]).
Proof. unfold chunk_body, transcribe. intros -> -> ->. reflexivity. Qed.

Lemma chunk_body_interrupted audio st i log e :
  too_short (chunk_audio audio i) = false ->
  model_transcribe sv (length log) (chunk_audio audio i) lang = Raised e ->
  is_Exception (exn_class e) = false ->
  chunk_body sv lang audio st i log = (Raised e, log ++ [chunk_audio audio i]).
Proof. unfold chunk_body, transcribe. intros -> -> ->. reflexivity. Qed.

(** The rule of the loop: a property of the variables and of the calls that
    holds at the start and is kept by an iteration that skips a short
    window, by one whose call returns and by one whose call raises an
    [Exception], holds after any number of iterations, unless the loop was
    left by an exception of the model that is no instance of [Exception]. *)
Lemma loop_rule audio (n : nat) (P : nat -> LoopState -> list (list Sample) -> Prop) :
  P 0%nat loop_start [] ->
  (forall (k : nat) st log,
      (k < n)%nat -> P k st log ->
      too_short (chunk_audio audio (Z.of_nat k)) = true -> P (S k) st log) ->
  (forall (k : nat) st log r,
      (k < n)%nat -> P k st log ->
      too_short (chunk_audio audio (Z.of_nat k)) = false ->
      model_transcribe sv (length log) (chunk_audio audio (Z.of_nat k)) lang
      = Returned r ->
      P (S k)
        {| full_text := full_text st ++ text_part (Returned r);
           full_segments := full_segments st
                            ++ segments_part (current_time_offset st) (Returned r);
           current_time_offset := seconds (end_sample audio (Z.of_nat k)) |}
        (log ++ [chunk_audio audio (Z.of_nat k)])) ->
  (forall (k : nat) st log e,
      (k < n)%nat -> P k st log ->
      too_short (chunk_audio audio (Z.of_nat k)) = false ->
      model_transcribe sv (length log) (chunk_audio audio (Z.of_nat k)) lang
      = Raised e ->
      is_Exception (exn_class e) = true ->
      P (S k) st (log ++ [chunk_audio audio (Z.of_nat k)])) ->
  forall k : nat, (k <= n)%nat ->
    match loop_upto sv lang audio k with
    | (Returned st, log) => P k st log
    | (Raised e, _) =>
      is_Exception (exn_class e) = false /\
      exists (j : nat) chunk, model_transcribe sv j chunk lang = Raised e
    end.
Proof.
  intros H0 Hshort Hret Hexn. induction k as [|k IH]; intros Hk; [exact H0|].
  rewrite loop_upto_S. specialize (IH ltac:(lia)).
  destruct (loop_upto sv lang audio k) as [[st|e] log]; [|exact IH].
  unfold loop_step. cbn [fst snd].
  destruct (too_short (chunk_audio audio (Z.of_nat k))) eqn:Hs.
  { rewrite chunk_body_short by exact Hs. apply Hshort; [lia|assumption..]. }
  destruct (model_transcribe sv (length log) (chunk_audio audio (Z.of_nat k)) lang)
    as [r|e] eqn:Hcall.
  - rewrite (chunk_body_returned _ _ _ _ _ Hs Hcall).
    apply Hret; [lia|assumption..].
  - destruct (is_Exception (exn_class e)) eqn:Hc.
    + rewrite (chunk_body_raised _ _ _ _ _ Hs Hcall Hc).
      apply (Hexn k st log e); [lia|assumption..].
    + rewrite (chunk_body_interrupted _ _ _ _ _ Hs Hcall Hc).
      split; [exact Hc|]. eauto.
Qed.

(** The rule, for [_process_long_audio]. *)
Lemma process_long_audio_rule audio
    (P : nat -> LoopState -> list (list Sample) -> Prop) :
  P 0%nat loop_start [] ->
  (forall (k : nat) st log,
      Z.of_nat k < total_chunks audio -> P k st log ->
      too_short (chunk_audio audio (Z.of_nat k)) = true -> P (S k) st log) ->
  (forall (k : nat) st log r,
      Z.of_nat k < total_chunks audio -> P k st log ->
      too_short (chunk_audio audio (Z.of_nat k)) = false ->
      model_transcribe sv (length log) (chunk_audio audio (Z.of_nat k)) lang
      = Returned r ->
      P (S k)
        {| full_text := full_text st ++ text_part (Returned r);
           full_segments := full_segments st
                            ++ segments_part (current_time_offset st) (Returned r);
           current_time_offset := seconds (end_sample audio (Z.of_nat k)) |}
        (log ++ [chunk_audio audio (Z.of_nat k)])) ->
  (forall (k : nat) st log e,
      Z.of_nat k < total_chunks audio -> P k st log ->
      too_short (chunk_audio audio (Z.of_nat k)) = false ->
      model_transcribe sv (length log) (chunk_audio audio (Z.of_nat k)) lang
      = Raised e ->
      is_Exception (exn_class e) = true ->
      P (S k) st (log ++ [chunk_audio audio (Z.of_nat k)])) ->
  match _process_long_audio sv audio lang with
  | Returned t =>
    exists st,
      P (Z.to_nat (total_chunks audio)) st (transcribe_calls sv audio lang) /\
      t = {| text := strip (full_text st); segments := full_segments st;
             language := lang |}
  | Raised e =>
    is_Exception (exn_class e) = false /\
    exists (j : nat) chunk, model_transcribe sv j chunk lang = Raised e
  end.
Proof.
  intros H0 Hshort Hret Hexn.
  pose proof (total_chunks_nonneg audio) as Hn.
  pose proof (loop_rule audio (Z.to_nat (total_chunks audio)) P H0) as H.
  specialize (H ltac:(intros k st log Hk; apply Hshort; lia)).
  specialize (H ltac:(intros k st log r Hk; apply Hret; lia)).
  specialize (H ltac:(intros k st log e Hk; apply Hexn; lia)).
  specialize (H _ (Nat.le_refl _)).
  unfold _process_long_audio, transcribe_calls. rewrite chunk_loop_upto.
  destruct (loop_upto sv lang audio (Z.to_nat (total_chunks audio))) as [[st|e] log];
    cbn [fst snd bind]; [|exact H].
  exists st. split; [exact H|reflexivity].
Qed.

(** When the model raises nothing but instances of [Exception], the loop is
    not left and [_process_long_audio] returns. *)
Lemma process_long_audio_returns audio :
  (forall (k : nat) chunk e,
      model_transcribe sv k chunk lang = Raised e ->
      is_Exception (exn_class e) = true) ->
  exists t, _process_long_audio sv audio lang = Returned t.
Proof.
  intros Hmodel.
  pose proof (process_long_audio_rule audio (fun _ _ _ => True)) as H.
  destruct (_process_long_audio sv audio lang) as [t|e]; [eauto|].
  destruct H as (Hc & j & chunk & Hcall); auto.
  rewrite (Hmodel _ _ _ Hcall) in Hc. discriminate.
Qed.

(** What leaves the loop was raised by a call of the model and is no instance
    of [Exception]. *)
Lemma process_long_audio_raised audio e :
  _process_long_audio sv audio lang = Raised e ->
  is_Exception (exn_class e) = false /\
  exists (j : nat) chunk, model_transcribe sv j chunk lang = Raised e.
Proof.
  intros He.
  pose proof (process_long_audio_rule audio (fun _ _ _ => True)) as H.
  rewrite He in H. apply H; auto.
Qed.

(** ** C8: windows and calls *)

(** The calls are the windows that are not too short, in order. *)
Lemma transcribe_calls_windows audio t :
  _process_long_audio sv audio lang = Returned t ->
  transcribe_calls sv audio lang
  = List.filter (fun w => negb (too_short w)) (windows audio).
Proof.
  intros Ht.
  unshelve epose proof (process_long_audio_rule audio
    (fun k _ log =>
       log = List.filter (fun w => negb (too_short w))
                         (map (chunk_audio audio) (range (Z.of_nat k))))
    _ _ _ _) as H.
  - reflexivity.
  - intros k st log _ -> Hs. rewrite range_S, map_app, List.filter_app.
    cbn [map List.filter]. rewrite Hs. cbn [negb]. rewrite app_nil_r. reflexivity.
  - intros k st log r _ -> Hs _. rewrite range_S, map_app, List.filter_app.
    cbn [map List.filter]. rewrite Hs. reflexivity.
  - intros k st log e _ -> Hs _ _. rewrite range_S, map_app, List.filter_app.
    cbn [map List.filter]. rewrite Hs. reflexivity.
  - rewrite Ht in H. destruct H as (st & H & _).
    rewrite H. unfold windows.
    rewrite Z2Nat.id by apply total_chunks_nonneg. reflexivity.
Qed.

Lemma filter_split_length {A} (f : A -> bool) (l : list A) :
  len (List.filter (fun x => negb (f x)) l) = len l - len (List.filter f l).
Proof.
  unfold len. induction l as [|a l IH]; [reflexivity|]. simpl.
  destruct (f a); simpl; lia.
Qed.

Lemma filter_ext_bool {A} (f g : A -> bool) (l : list A) :
  (forall x, f x = g x) -> List.filter f l = List.filter g l.
Proof.
  intros Hfg. induction l as [|a l IH]; [reflexivity|]. simpl.
  rewrite Hfg, IH. reflexivity.
Qed.

Lemma windows_lookup audio (k : nat) w :
  windows audio !! k = Some w ->
  w = chunk_audio audio (Z.of_nat k) /\ 0 <= Z.of_nat k < total_chunks audio.
Proof.
  unfold windows. rewrite list_lookup_fmap.
  destruct (range (total_chunks audio) !! k) as [i|] eqn:E; [|discriminate].
  intros [= <-]. apply range_lookup in E as [-> Hi]. auto.
Qed.

Lemma len_windows audio : len (windows audio) = total_chunks audio.
Proof.
  unfold windows, len. rewrite length_map.
  apply (length_range (total_chunks audio)), total_chunks_nonneg.
Qed.

Lemma long_audio_iff audio : (30 < duration audio)%Q <-> 16000 * 30 < len audio.
Proof. unfold Qlt, duration, seconds, sample_rate. simpl. lia. Qed.

(** The number of windows is the duration over thirty seconds, rounded up. *)
Lemma total_chunks_ceiling audio :
  Qceiling (duration audio / 30) = total_chunks audio.
Proof.
  pose proof (len_nonneg audio) as Hl.
  set (x := (duration audio / 30)%Q).
  assert (Hx : (inject_Z (total_chunks audio - 1) < x)%Q
               /\ (x <= inject_Z (total_chunks audio))%Q).
  { subst x. unfold Qlt, Qle, duration, seconds, sample_rate. simpl.
    destruct (Z.eq_dec (len audio) 0) as [E|Hne].
    - rewrite (total_chunks_empty _ E), E. simpl. lia.
    - pose proof (total_chunks_bounds audio ltac:(lia)) as Hb.
      rewrite chunk_samples_eq in Hb. lia. }
  destruct Hx as [Hlo Hhi].
  apply Qceiling_resp_le in Hhi. rewrite Qceiling_Z in Hhi.
  pose proof (Qle_ceiling x) as Hc.
  assert (Hlt : (inject_Z (total_chunks audio - 1) < inject_Z (Qceiling x))%Q)
    by (eapply Qlt_le_trans; eassumption).
  rewrite <- Zlt_Qlt in Hlt. lia.
Qed.

(** What the loop gathers is what the answers of the model contribute, call
    by call. *)
Lemma process_long_audio_outcomes audio :
  match _process_long_audio sv audio lang with
  | Returned t =>
    text t = strip (flat_map text_part (outcomes sv audio lang)) /\
    exists offsets : list Q,
      length offsets = length (outcomes sv audio lang) /\
      segments t = concat (zip_with segments_part offsets (outcomes sv audio lang))
  | Raised e =>
    is_Exception (exn_class e) = false /\
    exists (j : nat) chunk, model_transcribe sv j chunk lang = Raised e
  end.
Proof.
  set (outs := fun log : list (list Sample) =>
                 imap (fun j chunk => model_transcribe sv j chunk lang) log).
  assert (Himap : forall log c,
             outs (log ++ [c]) = outs log ++ [model_transcribe sv (length log) c lang]).
  { intros log c. unfold outs. rewrite imap_app. simpl.
    rewrite Nat.add_0_r. reflexivity. }
  unshelve epose proof (process_long_audio_rule audio
    (fun _ st log =>
       full_text st = flat_map text_part (outs log) /\
       exists offsets : list Q,
         length offsets = length (outs log) /\
         full_segments st = concat (zip_with segments_part offsets (outs log)))
    _ _ _ _) as H.
  - split; [reflexivity|]. exists []. split; reflexivity.
  - intros k st log _ HP _. exact HP.
  - intros k st log r _ (Htext & offsets & Hlen & Hsegs) _ Hcall.
    cbn [full_text full_segments]. rewrite Himap, Hcall, flat_map_app. split.
    + rewrite Htext. simpl. rewrite app_nil_r. reflexivity.
    + exists (offsets ++ [current_time_offset st]). split.
      * rewrite !length_app, Hlen. reflexivity.
      * rewrite zip_with_app by exact Hlen.
        rewrite concat_app, Hsegs. simpl. rewrite app_nil_r. reflexivity.
  - intros k st log e _ (Htext & offsets & Hlen & Hsegs) _ Hcall _.
    rewrite Himap, Hcall, flat_map_app. split.
    + rewrite Htext. simpl. rewrite app_nil_r. reflexivity.
    + exists (offsets ++ [current_time_offset st]). split.
      * rewrite !length_app, Hlen. reflexivity.
      * rewrite zip_with_app by exact Hlen.
        rewrite concat_app, Hsegs. simpl. rewrite app_nil_r. reflexivity.
  - destruct (_process_long_audio sv audio lang) as [t|e]; [|exact H].
    destruct H as (st & (Htext & Hsegs) & ->).
    cbn [text segments]. unfold outcomes.
    fold (outs (transcribe_calls sv audio lang)).
    rewrite Htext. split; [reflexivity|exact Hsegs].
Qed.

Lemma flat_map_all_raised (outs : list (Outcome Exn Transcription)) :
  (forall o, In o outs -> exists e, o = Raised e) -> flat_map text_part outs = [].
Proof.
  induction outs as [|o outs IH]; [reflexivity|]. intros Hall. simpl.
  destruct (Hall o (or_introl eq_refl)) as [e ->]. simpl.
  apply IH. intros o' Ho'. apply Hall. right. exact Ho'.
Qed.

Lemma segments_all_raised (outs : list (Outcome Exn Transcription)) :
  (forall o, In o outs -> exists e, o = Raised e) ->
  forall offsets : list Q, concat (zip_with segments_part offsets outs) = [].
Proof.
  induction outs as [|o outs IH]; intros Hall offsets.
  - destruct offsets; reflexivity.
  - destruct offsets as [|off offsets]; [reflexivity|]. simpl.
    destruct (Hall o (or_introl eq_refl)) as [e ->]. simpl.
    apply IH. intros o' Ho'. apply Hall. right. exact Ho'.
Qed.

(** When no call returns, the loop ends as it started. *)
Lemma process_long_audio_none_returned audio :
  (forall (k : nat) chunk r, model_transcribe sv k chunk lang <> Returned r) ->
  match _process_long_audio sv audio lang with
  | Returned t => t = {| text := []; segments := []; language := lang |}
  | Raised e =>
    is_Exception (exn_class e) = false /\
    exists (j : nat) chunk, model_transcribe sv j chunk lang = Raised e
  end.
Proof.
  intros Hnone.
  unshelve epose proof (process_long_audio_rule audio (fun _ st _ => st = loop_start)
                          _ _ _ _) as H.
  - reflexivity.
  - intros k st log _ HP _. exact HP.
  - intros k st log r _ _ _ Hcall. destruct (Hnone _ _ _ Hcall).
  - intros k st log e _ HP _ _ _. exact HP.
  - destruct (_process_long_audio sv audio lang) as [t|e]; [|exact H].
    destruct H as (st & -> & ->). reflexivity.
Qed.

(** When every call fails with an [Exception], the result is the empty
    transcript. *)
Lemma process_long_audio_all_raised audio :
  (forall (k : nat) chunk, exists e,
      model_transcribe sv k chunk lang = Raised e /\
      is_Exception (exn_class e) = true) ->
  _process_long_audio sv audio lang
  = Returned {| text := []; segments := []; language := lang |}.
Proof.
  intros Hfail.
  pose proof (process_long_audio_none_returned audio) as H.
  destruct (_process_long_audio sv audio lang) as [t|e].
  - rewrite H; [reflexivity|]. intros k chunk r Hr.
    destruct (Hfail k chunk) as (e & He & _). congruence.
  - destruct H as (Hc & j & chunk & Hcall).
    + intros k chunk r Hr. destruct (Hfail k chunk) as (e' & He & _). congruence.
    + destruct (Hfail j chunk) as (e' & He & Hc'). congruence.
Qed.

(** On a readable file longer than 30 seconds [transcribe_audio] is
    [_process_long_audio]: what the loop lets pass is no instance of
    [Exception], so the handler of [transcribe_audio] lets it pass too. *)
Lemma transcribe_audio_long (path : str) audio :
  path_exists sv path = true ->
  librosa_load sv path = Returned audio ->
  (30 < duration audio)%Q ->
  transcribe_audio sv path lang = _process_long_audio sv audio lang.
Proof.
  intros Hex Hload Hlong. apply long_audio_iff in Hlong.
  unfold transcribe_audio. rewrite Hex, Hload. cbn [negb bind].
  destruct (Z.gtb_spec (len audio) (16000 * 30)); [|lia].
  pose proof (process_long_audio_rule audio (fun _ _ _ => True)) as HR.
  unfold try_except.
  destruct (_process_long_audio sv audio lang) as [t|e]; [reflexivity|].
  destruct HR as [Hc _]; auto. rewrite Hc. reflexivity.
Qed.

(** C8: a buffer longer than 30 seconds is cut into consecutive windows that
    together are the buffer; every window lasts at most 30 seconds and every
    window but the last exactly 30; only the last window can be shorter than
    half a second.  When no call of the model fails, the model is called once
    for each window that is not, in order: the number of calls is the
    duration over 30 rounded up, minus the number of windows shorter than
    half a second, and the transcript returned is made of the answers to
    exactly these calls, every one of which contributes its text and its
    segments. *)
Theorem chunked_call_count audio :
  (30 < duration audio)%Q ->
  (forall (k : nat) chunk, exists r, model_transcribe sv k chunk lang = Returned r) ->
  concat (windows audio) = audio /\
  (forall (k : nat) w, windows audio !! k = Some w ->
     (0 < duration w)%Q /\ (duration w <= 30)%Q /\
     ((S k < length (windows audio))%nat -> (duration w == 30)%Q)) /\
  (forall (k : nat) w, windows audio !! k = Some w ->
     Qltb (duration w) 0.5 = true -> S k = length (windows audio)) /\
  transcribe_calls sv audio lang
  = List.filter (fun w => negb (Qltb (duration w) 0.5)) (windows audio) /\
  len (transcribe_calls sv audio lang)
  = Qceiling (duration audio / 30)
    - len (List.filter (fun w => Qltb (duration w) 0.5) (windows audio)) /\
  exists t (answers : list Transcription) (offsets : list Q),
    _process_long_audio sv audio lang = Returned t /\
    imap (fun k w => model_transcribe sv k w lang)
         (List.filter (fun w => negb (Qltb (duration w) 0.5)) (windows audio))
    = map Returned answers /\
    len answers
    = Qceiling (duration audio / 30)
      - len (List.filter (fun w => Qltb (duration w) 0.5) (windows audio)) /\
    length offsets = length answers /\
    text t = strip (flat_map (fun r => text_part (Returned r)) answers) /\
    segments t
    = concat (zip_with (fun off r => map (adjusted_segment off) (segments r))
                       offsets answers).
Proof.
  intros Hlong Hanswers.
  pose proof (len_windows audio) as Hn. unfold len in Hn.
  destruct (process_long_audio_returns audio) as [t Ht].
  { intros k chunk e He. destruct (Hanswers k chunk) as [r Hr]. congruence. }
  pose proof (transcribe_calls_windows audio t Ht) as Hcalls.
  assert (Hfilter : List.filter (fun w => negb (too_short w)) (windows audio)
                    = List.filter (fun w => negb (Qltb (duration w) 0.5)) (windows audio)).
  { apply filter_ext_bool. intros w. rewrite duration_lt_half. reflexivity. }
  assert (Hcount : len (transcribe_calls sv audio lang)
                   = Qceiling (duration audio / 30)
                     - len (List.filter (fun w => Qltb (duration w) 0.5)
                                        (windows audio))).
  { rewrite total_chunks_ceiling, <- len_windows, Hcalls.
    rewrite (filter_ext_bool (fun w => Qltb (duration w) 0.5) too_short)
      by apply duration_lt_half.
    apply filter_split_length. }
  split; [apply concat_windows|].
  split; [|split; [|split; [|split]]].
  - intros k w Hw. apply windows_lookup in Hw as [-> Hk].
    pose proof (len_chunk_audio_le audio _ Hk) as Hle.
    rewrite chunk_samples_eq in Hle.
    split; [|split].
    + unfold Qlt, duration, seconds, sample_rate. simpl. lia.
    + unfold Qle, duration, seconds, sample_rate. simpl. lia.
    + intros Hlast.
      pose proof (len_chunk_audio_full audio (Z.of_nat k) ltac:(lia)) as Hfull.
      rewrite chunk_samples_eq in Hfull.
      unfold Qeq, duration, seconds, sample_rate. simpl. lia.
  - intros k w Hw Hshort. apply windows_lookup in Hw as [-> Hk].
    rewrite duration_lt_half, too_short_iff in Hshort.
    destruct (Z.eq_dec (Z.of_nat k) (total_chunks audio - 1)) as [E|Hne]; [lia|].
    pose proof (len_chunk_audio_full audio (Z.of_nat k) ltac:(lia)) as Hfull.
    rewrite chunk_samples_eq in Hfull. lia.
  - rewrite Hcalls. exact Hfilter.
  - exact Hcount.
  - pose proof (process_long_audio_outcomes audio) as Hout. rewrite Ht in Hout.
    destruct Hout as (Htext & offsets & Hlen & Hsegs).
    assert (Hall : exists answers, outcomes sv audio lang = map Returned answers).
    { unfold outcomes. generalize (transcribe_calls sv audio lang).
      intros log.
      assert (G : forall (l : list (list Sample)) (f : nat -> nat),
                 exists answers,
                   imap (fun j chunk => model_transcribe sv (f j) chunk lang) l
                   = map Returned answers).
      { induction l as [|c l IH]; intros f; [exists []; reflexivity|].
        destruct (Hanswers (f 0%nat) c) as [r Hr].
        destruct (IH (fun j => f (S j))) as [answers Ha].
        exists (r :: answers). cbn [imap map]. rewrite Hr. f_equal. exact Ha. }
      apply (G log (fun j => j)). }
    destruct Hall as [answers Ha].
    exists t, answers, offsets.
    split; [exact Ht|].
    split; [rewrite <- Hfilter, <- Hcalls; exact Ha|].
    assert (Hla : length answers = length (transcribe_calls sv audio lang)).
    { apply (f_equal (@length _)) in Ha.
      unfold outcomes in Ha. rewrite length_imap, length_map in Ha. lia. }
    split; [unfold len in *; lia|].
    split; [rewrite Hlen, Ha, length_map; reflexivity|].
    rewrite Ha in Htext, Hsegs. split.
    + rewrite Htext. f_equal. clear. induction answers as [|r l IH]; [reflexivity|].
      cbn [map flat_map]. rewrite IH. reflexivity.
    + rewrite Hsegs. clear. revert offsets.
      induction answers as [|r l IH]; intros [|off offsets]; try reflexivity.
      cbn [map zip_with concat]. rewrite IH. reflexivity.
Qed.

(** ** C9: the stitched segments are in order *)

Lemma seconds_le (a b : Z) : a <= b -> (seconds a <= seconds b)%Q.
Proof. intros H. unfold seconds, Qle, sample_rate. simpl. lia. Qed.

Lemma seconds_add (a b : Z) : (seconds (a + b) == seconds a + seconds b)%Q.
Proof. unfold seconds, Qeq, sample_rate. simpl. lia. Qed.

Lemma start_le_transitive : Transitive start_le.
Proof. intros a b c. unfold start_le. apply Qle_trans. Qed.

Lemma adjusted_segments_sorted (offset : Q) (l : list Segment) :
  StronglySorted start_le l ->
  StronglySorted start_le (map (adjusted_segment offset) l).
Proof.
  induction 1 as [|a l Hl IH Ha]; simpl; constructor; [exact IH|].
  rewrite List.Forall_forall in *. intros b' Hb'.
  apply in_map_iff in Hb' as (b & <- & Hb).
  specialize (Ha b Hb). unfold start_le in *. simpl.
  apply round_mono. lra.
Qed.

(** C9: when the segments of every answer of the model are in order of start
    time and lie within their chunk, the segments [_process_long_audio]
    returns are in order of start time, whichever windows are skipped for
    being too short and whichever calls fail.  It returns unless a call of
    the model raised what is no instance of [Exception].  The invariant of
    the loop: the segments gathered so far are in order, none starts after
    the running offset (as a float), and the offset is at most the start of
    the next window. *)
Theorem stitched_segments_sorted audio :
  answers_in_order sv lang ->
  match _process_long_audio sv audio lang with
  | Returned t => Sorted start_le (segments t)
  | Raised e =>
    is_Exception (exn_class e) = false /\
    exists (k : nat) chunk, model_transcribe sv k chunk lang = Raised e
  end.
Proof.
  intros Hmodel.
  assert (Hnext : forall k : nat,
             (seconds (start_sample (Z.of_nat k))
              <= seconds (start_sample (Z.of_nat (S k))))%Q).
  { intros k. apply seconds_le. unfold start_sample. rewrite chunk_samples_eq. lia. }
  unshelve epose proof (process_long_audio_rule audio
    (fun k st _ =>
       StronglySorted start_le (full_segments st) /\
       Forall (fun s => (start s <= Float.round (current_time_offset st))%Q)
              (full_segments st) /\
       (current_time_offset st <= seconds (start_sample (Z.of_nat k)))%Q)
    _ _ _ _) as H.
  - repeat split; [constructor|constructor|].
    unfold start_sample, seconds, Qle, sample_rate. simpl. lia.
  - intros k st log _ (Hsorted & Hbound & Hoff) _.
    repeat split; [assumption|assumption|]. specialize (Hnext k). lra.
  - intros k st log r Hk (Hsorted & Hbound & Hoff) _ Hcall.
    cbn [full_segments current_time_offset segments_part].
    destruct (len_chunk_audio audio (Z.of_nat k) ltac:(lia)) as (Hlen & Hlt & Hend).
    destruct (Hmodel _ _ _ Hcall) as [Hr Hin].
    apply Sorted_StronglySorted in Hr; [|apply start_le_transitive].
    rewrite List.Forall_forall in Hin, Hbound.
    assert (Hdur : (duration (chunk_audio audio (Z.of_nat k))
                    + seconds (start_sample (Z.of_nat k))
                    == seconds (end_sample audio (Z.of_nat k)))%Q).
    { unfold duration. rewrite Hlen, <- seconds_add. f_equiv. lia. }
    assert (Hse : (seconds (start_sample (Z.of_nat k))
                   <= seconds (end_sample audio (Z.of_nat k)))%Q)
      by (apply seconds_le; lia).
    repeat split.
    + apply StronglySorted_app_2; [|assumption|apply adjusted_segments_sorted, Hr].
      intros a b Ha Hb. apply list_elem_of_In in Ha.
      apply list_elem_of_In, in_map_iff in Hb as (b0 & <- & Hb0).
      specialize (Hbound a Ha). destruct (Hin b0 Hb0) as [H0 _].
      unfold start_le. simpl. eapply Qle_trans; [exact Hbound|].
      apply round_mono. lra.
    + apply List.Forall_forall. intros a Ha.
      apply in_app_or in Ha as [Ha|Ha].
      * specialize (Hbound a Ha). simpl in Hbound.
        eapply Qle_trans; [exact Hbound|]. apply round_mono. lra.
      * apply in_map_iff in Ha as (b0 & <- & Hb0).
        destruct (Hin b0 Hb0) as [_ H1]. simpl. apply round_mono. lra.
    + apply seconds_le. unfold end_sample, start_sample. lia.
  - intros k st log e _ (Hsorted & Hbound & Hoff) _ _ _.
    repeat split; [assumption|assumption|]. specialize (Hnext k). lra.
  - destruct (_process_long_audio sv audio lang) as [t|e]; [|exact H].
    destruct H as (st & (Hsorted & _) & ->).
    apply StronglySorted_Sorted, Hsorted.
Qed.

(** ** C2: failed windows are skipped *)

(** C2 (amended): on the chunked path (a readable file longer than 30
    seconds) [transcribe_audio] raises no instance of [Exception], whatever
    the calls of the model do: it returns a transcript whose text and
    segments are the contributions of the answers, a failed call
    contributing neither text nor segments; when every call fails the
    returned transcript has an empty text and no segment.  Only what a call
    of the model raises outside [Exception] leaves the function, as it is. *)
Theorem chunked_failures_are_skipped (path : str) audio :
  path_exists sv path = true ->
  librosa_load sv path = Returned audio ->
  (30 < duration audio)%Q ->
  match transcribe_audio sv path lang with
  | Returned t =>
    text t = strip (flat_map text_part (outcomes sv audio lang)) /\
    (exists offsets : list Q,
        length offsets = length (outcomes sv audio lang) /\
        segments t = concat (zip_with segments_part offsets (outcomes sv audio lang))) /\
    ((forall o, In o (outcomes sv audio lang) -> exists e, o = Raised e) ->
     text t = [] /\ segments t = [])
  | Raised e =>
    is_Exception (exn_class e) = false /\
    exists (k : nat) chunk, model_transcribe sv k chunk lang = Raised e
  end.
Proof.
  intros Hex Hload Hlong.
  rewrite (transcribe_audio_long path audio Hex Hload Hlong).
  pose proof (process_long_audio_outcomes audio) as H.
  destruct (_process_long_audio sv audio lang) as [t|e]; [|exact H].
  destruct H as (Htext & offsets & Hlen & Hsegs).
  split; [exact Htext|]. split; [eauto|].
  intros Hall. rewrite Htext, Hsegs.
  rewrite (flat_map_all_raised _ Hall), (segments_all_raised _ Hall).
  split; reflexivity.
Qed.

(** ** C1: a failed window does not advance the offset *)

(** A buffer of 75 seconds whose second window fails: the segments of the
    third window are shifted by the end of the first window. *)
Lemma second_window_fails audio r1 e r3 :
  len audio = 75 * 16000 ->
  model_transcribe sv 0 (chunk_audio audio 0) lang = Returned r1 ->
  model_transcribe sv 1 (chunk_audio audio 1) lang = Raised e ->
  is_Exception (exn_class e) = true ->
  model_transcribe sv 2 (chunk_audio audio 2) lang = Returned r3 ->
  _process_long_audio sv audio lang =
  Returned
    {| text := strip (text_part (Returned r1) ++ text_part (Returned r3));
       segments := segments_part 0 (Returned r1)
                   ++ segments_part (seconds (30 * 16000)) (Returned r3);
       language := lang |}.
Proof.
  intros Hlen H1 H2 Hc H3.
  assert (Hn : total_chunks audio = 3) by (unfold total_chunks; rewrite Hlen; reflexivity).
  assert (Hshort : forall i, 0 <= i < 3 -> too_short (chunk_audio audio i) = false).
  { intros i Hi. apply not_true_iff_false. rewrite too_short_iff.
    destruct (len_chunk_audio audio i ltac:(lia)) as (-> & _ & _).
    unfold end_sample, start_sample. rewrite chunk_samples_eq, Hlen. lia. }
  assert (Hend0 : end_sample audio 0 = 30 * 16000)
    by (unfold end_sample; rewrite Hlen; reflexivity).
  pose (st1 := {| full_text := text_part (Returned r1);
                  full_segments := segments_part 0 (Returned r1);
                  current_time_offset := seconds (end_sample audio 0) |}).
  assert (S1 : loop_upto sv lang audio 1
               = (Returned st1, [chunk_audio audio 0])).
  { rewrite loop_upto_S.
    exact (chunk_body_returned audio loop_start 0 [] r1 (Hshort 0 ltac:(lia)) H1). }
  assert (S2 : loop_upto sv lang audio 2
               = (Returned st1, [chunk_audio audio 0] ++ [chunk_audio audio 1])).
  { rewrite loop_upto_S, S1.
    exact (chunk_body_raised audio st1 1 [chunk_audio audio 0] e
             (Hshort 1 ltac:(lia)) H2 Hc). }
  unfold _process_long_audio. rewrite chunk_loop_upto, Hn.
  change (Z.to_nat 3) with 3%nat.
  rewrite loop_upto_S, S2. unfold loop_step. cbn [fst snd].
  rewrite (chunk_body_returned audio st1 (Z.of_nat 2)
             ([chunk_audio audio 0] ++ [chunk_audio audio 1]) r3
             (Hshort 2 ltac:(lia)) H3).
  cbn [fst bind full_text full_segments current_time_offset st1].
  rewrite Hend0. reflexivity.
Qed.

(** ** C10: what [process_call_recording] returns and what it lets pass *)

(** C10 (amended): [process_call_recording] raises no instance of
    [Exception]: when [transcribe_audio] or [save_transcript] raises one, it
    returns the failure dictionary with the message of the exception;
    otherwise it returns the success dictionary with the text, the segments
    and the path [save_transcript] returned.  What they raise outside
    [Exception] is raised to the caller, as it is. *)
Theorem process_call_recording_outcomes
    (audio_file : str) (output_file : option str) (base_filename : option str) :
  process_call_recording sv audio_file output_file lang base_filename
  = match transcribe_audio sv audio_file lang with
    | Raised e =>
      if is_Exception (exn_class e) then Returned (CallFailed (message e))
      else Raised e
    | Returned result =>
      match save_transcript sv result output_file base_filename with
      | Raised e =>
        if is_Exception (exn_class e) then Returned (CallFailed (message e))
        else Raised e
      | Returned saved_file =>
        Returned (CallOk (text result) (segments result) saved_file base_filename)
      end
    end
  /\ (forall e,
        process_call_recording sv audio_file output_file lang base_filename
        = Raised e ->
        is_Exception (exn_class e) = false)
  /\ (forall error,
        process_call_recording sv audio_file output_file lang base_filename
        = Returned (CallFailed error) ->
        exists e,
          is_Exception (exn_class e) = true /\ error = message e /\
          (transcribe_audio sv audio_file lang = Raised e \/
           exists result,
             transcribe_audio sv audio_file lang = Returned result /\
             save_transcript sv result output_file base_filename = Raised e)).
Proof.
  unfold process_call_recording, try_except.
  destruct (transcribe_audio sv audio_file lang) as [result|e] eqn:Ht; cbn [bind].
  - destruct (save_transcript sv result output_file base_filename) as [saved|e] eqn:Hs;
      cbn [bind].
    + split; [reflexivity|]. split; [discriminate|discriminate].
    + destruct (is_Exception (exn_class e)) eqn:Hc.
      * split; [reflexivity|]. split; [discriminate|].
        intros error [= <-]. exists e. eauto 8.
      * split; [reflexivity|]. split; [intros e' [= <-]; exact Hc|discriminate].
  - destruct (is_Exception (exn_class e)) eqn:Hc.
    + split; [reflexivity|]. split; [discriminate|].
      intros error [= <-]. exists e. auto.
    + split; [reflexivity|]. split; [intros e' [= <-]; exact Hc|discriminate].
Qed.

End VoiceProperties.

(** ** The 75-second request *)

Section VoiceScenario.
Import Py Voice Scenario Requests.

Lemma len_audio75 : len audio75 = 75 * 16000.
Proof. unfold len, audio75. rewrite repeat_length. lia. Qed.

Lemma audio75_long : (30 < duration audio75)%Q.
Proof. apply long_audio_iff. rewrite len_audio75. lia. Qed.

(** C1 (the code at the failing input): 75 seconds of audio, the second of
    the three calls fails.  The text is the first text, a space and the third
    text; the segment of the third window, which starts 1 second into its
    window, is placed at 1 + 30 seconds, not at 1 + 60. *)
Theorem failed_window_keeps_offset :
  exists s1 s3,
    _process_long_audio (services fails_second) audio75 ko
    = Returned {| text := py "first third"; segments := [s1; s3]; language := ko |} /\
    (start s3 == 1 + 30)%Q /\ ~ (start s3 == 1 + 60)%Q.
Proof.
  rewrite (second_window_fails Z (services fails_second) ko audio75
             first_answer out_of_memory third_answer
             len_audio75 eq_refl eq_refl eq_refl eq_refl).
  eexists _, _. split; [reflexivity|]. split.
  - vm_compute. reflexivity.
  - intros H. vm_compute in H. discriminate H.
Qed.

(** C2 (counterexample): on the chunked path with a model whose every call
    fails, [transcribe_audio] raises nothing: it returns the transcript with
    an empty text and no segment. *)
Lemma all_windows_fail_returns :
  transcribe_audio (services always_fails) (py "call.wav") ko
  = Returned {| text := []; segments := []; language := ko |} /\
  forall e, transcribe_audio (services always_fails) (py "call.wav") ko <> Raised e.
Proof.
  assert (H : transcribe_audio (services always_fails) (py "call.wav") ko
              = Returned {| text := []; segments := []; language := ko |}).
  { rewrite (transcribe_audio_long Z (services always_fails) ko (py "call.wav") audio75
               eq_refl eq_refl audio75_long).
    apply process_long_audio_all_raised.
    intros k chunk. exists out_of_memory. split; reflexivity. }
  split; [exact H|]. intros e. rewrite H. discriminate.
Qed.

Lemma chunked_failures_are_skipped_witness :
  path_exists (services fails_second) (py "call.wav") = true /\
  librosa_load (services fails_second) (py "call.wav") = Returned audio75 /\
  (30 < duration audio75)%Q /\
  exists o,
    transcribe_audio (services fails_second) (py "call.wav") ko = o /\
    match o with
    | Returned t =>
      text t = strip (flat_map text_part (outcomes (services fails_second) audio75 ko)) /\
      (exists offsets : list Q,
          length offsets = length (outcomes (services fails_second) audio75 ko) /\
          segments t = concat (zip_with segments_part offsets
                                        (outcomes (services fails_second) audio75 ko))) /\
      ((forall o', In o' (outcomes (services fails_second) audio75 ko) ->
                   exists e, o' = Raised e) ->
       text t = [] /\ segments t = [])
    | Raised e =>
      is_Exception (exn_class e) = false /\
      exists (k : nat) chunk,
        model_transcribe (services fails_second) k chunk ko = Raised e
    end.
Proof.
  split; [reflexivity|]. split; [reflexivity|]. split; [exact audio75_long|].
  eexists. split; [reflexivity|].
  exact (chunked_failures_are_skipped Z (services fails_second) ko (py "call.wav")
           audio75 eq_refl eq_refl audio75_long).
Defined.

Lemma len_audio_short_tail : len audio_short_tail = 30 * 16000 + 100.
Proof. unfold len, audio_short_tail. rewrite repeat_length. lia. Qed.

Lemma audio_short_tail_long : (30 < duration audio_short_tail)%Q.
Proof. apply long_audio_iff. rewrite len_audio_short_tail. lia. Qed.

Lemma chunked_call_count_witness :
  (30 < duration audio_short_tail)%Q /\
  (forall (k : nat) (chunk : list Z), exists r,
      model_transcribe (services answers_first) k chunk ko = Returned r) /\
  (concat (windows audio_short_tail) = audio_short_tail /\
   (forall (k : nat) w, windows audio_short_tail !! k = Some w ->
      (0 < duration w)%Q /\ (duration w <= 30)%Q /\
      ((S k < length (windows audio_short_tail))%nat -> (duration w == 30)%Q)) /\
   (forall (k : nat) w, windows audio_short_tail !! k = Some w ->
      Qltb (duration w) 0.5 = true -> S k = length (windows audio_short_tail)) /\
   transcribe_calls (services answers_first) audio_short_tail ko
   = List.filter (fun w => negb (Qltb (duration w) 0.5)) (windows audio_short_tail) /\
   len (transcribe_calls (services answers_first) audio_short_tail ko)
   = Qceiling (duration audio_short_tail / 30)
     - len (List.filter (fun w => Qltb (duration w) 0.5) (windows audio_short_tail)) /\
   exists t (answers : list Transcription) (offsets : list Q),
     _process_long_audio (services answers_first) audio_short_tail ko = Returned t /\
     imap (fun k w => model_transcribe (services answers_first) k w ko)
          (List.filter (fun w => negb (Qltb (duration w) 0.5))
                       (windows audio_short_tail))
     = map Returned answers /\
     len answers
     = Qceiling (duration audio_short_tail / 30)
       - len (List.filter (fun w => Qltb (duration w) 0.5)
                          (windows audio_short_tail)) /\
     length offsets = length answers /\
     text t = strip (flat_map (fun r => text_part (Returned r)) answers) /\
     segments t
     = concat (zip_with (fun off r => map (adjusted_segment off) (segments r))
                        offsets answers)).
Proof.
  split; [exact audio_short_tail_long|].
  split; [intros k chunk; exists first_answer; reflexivity|].
  exact (chunked_call_count Z (services answers_first) ko audio_short_tail
           audio_short_tail_long (fun k chunk => ex_intro _ first_answer eq_refl)).
Defined.

Lemma marks_ends_in_order : answers_in_order (services marks_ends) ko.
Proof.
  intros k chunk r Hr.
  assert (Hd : (0 <= duration chunk)%Q).
  { unfold duration, seconds, Qle, sample_rate, len. simpl. lia. }
  assert (E : r = {| text := py "mark";
                     segments := [ {| start := 0; end_ := 0; seg_text := py "start" |};
                                   {| start := duration chunk; end_ := duration chunk;
                                      seg_text := py "end" |} ];
                     language := ko |}).
  { simpl in Hr. unfold marks_ends in Hr.
    destruct k as [|[|k]]; [congruence|discriminate|congruence]. }
  subst r. simpl. split.
  - repeat constructor. exact Hd.
  - repeat constructor; simpl; try exact Hd; apply Qle_refl.
Qed.

Lemma stitched_segments_sorted_witness :
  answers_in_order (services marks_ends) ko /\
  exists o,
    _process_long_audio (services marks_ends) audio75 ko = o /\
    match o with
    | Returned t => Sorted start_le (segments t)
    | Raised e =>
      is_Exception (exn_class e) = false /\
      exists (k : nat) chunk,
        model_transcribe (services marks_ends) k chunk ko = Raised e
    end.
Proof.
  split; [exact marks_ends_in_order|].
  eexists. split; [reflexivity|].
  exact (stitched_segments_sorted Z (services marks_ends) ko audio75 marks_ends_in_order).
Defined.

(** C10 (counterexample): Ctrl-C while the model transcribes a short
    recording is raised to the caller of [process_call_recording]; no
    dictionary is returned. *)
Lemma interrupt_is_propagated :
  process_call_recording (services_on true [0; 0; 0] interrupted) (py "call.wav")
                         None ko None
  = Raised keyboard_interrupt /\
  forall r,
    process_call_recording (services_on true [0; 0; 0] interrupted) (py "call.wav")
                           None ko None
    <> Returned r.
Proof.
  assert (H : process_call_recording (services_on true [0; 0; 0] interrupted)
                (py "call.wav") None ko None
              = Raised keyboard_interrupt) by reflexivity.
  split; [exact H|]. intros r. rewrite H. discriminate.
Qed.

End VoiceScenario.

(* ===================================================================== *)
(** * Properties of the analysis graph *)
(* ===================================================================== *)

Section GraphProperties.
Import Py Graph.

Variable caps : Capabilities.

Lemma apply_update_input (text : str) :
  apply_update {| messages := []; dummy_data := [] |} {[ "messages"%string := VStr text ]}
  = {| messages := [HumanMessage text]; dummy_data := [] |}.
Proof.
  unfold apply_update. rewrite lookup_singleton_eq.
  rewrite lookup_singleton_ne by discriminate. reflexivity.
Qed.

(** The dictionary of the search node names no channel: the state is left as
    it was. *)
Lemma apply_update_context (st : State) (v : Value) :
  apply_update st {[ "context"%string := v ]} = st.
Proof.
  unfold apply_update. rewrite !lookup_singleton_ne by discriminate.
  destruct st; reflexivity.
Qed.

Lemma apply_update_answer (st : State) (m : Message) :
  apply_update st (<[ "messages"%string := VMessage m ]>
                   {[ "dummy_data"%string := VStr (py "anal step") ]})
  = {| messages := messages st ++ [m];
       dummy_data := dummy_data st ++ [HumanMessage (py "anal step")] |}.
Proof.
  unfold apply_update. rewrite lookup_insert_eq.
  rewrite lookup_insert_ne by discriminate. rewrite lookup_singleton_eq.
  reflexivity.
Qed.

Lemma condition_on_human (text : str) (dummy : list Message) :
  _custom_tools_condition {| messages := [HumanMessage text]; dummy_data := dummy |}
  = Returned "answer"%string.
Proof. reflexivity. Qed.

Lemma condition_range (st : State) (b : string) :
  _custom_tools_condition st = Returned b -> b = "tools"%string \/ b = "answer"%string.
Proof.
  unfold _custom_tools_condition. destruct (last (messages st)); [|discriminate].
  destruct (bool_decide _); intros [= <-]; auto.
Qed.

(** The state after the search step is the input state. *)
Lemma state_after_search_eq (text : str) :
  state_after_search caps text
  = match llm_tool caps [HumanMessage text] with
    | Returned _ => Returned {| messages := [HumanMessage text]; dummy_data := [] |}
    | Raised e => Raised e
    end.
Proof.
  unfold state_after_search. rewrite apply_update_input.
  unfold _search_node. simpl.
  destruct (llm_tool caps [HumanMessage text]); simpl; [|reflexivity].
  rewrite apply_update_context. reflexivity.
Qed.

(** Whatever message the search step produces, the conditional edge goes to
    the answer node. *)
Lemma route_after_search_answer (text : str) (m : Message) :
  llm_tool caps [HumanMessage text] = Returned m ->
  route_after_search caps text = Returned "answer"%string.
Proof.
  intros Hm. unfold route_after_search. rewrite state_after_search_eq, Hm.
  reflexivity.
Qed.

(** The runs of [analyze_text]: the search node, then the answer node. *)
Lemma analyze_trace_eq (text : str) :
  analyze_trace caps text
  = match llm_tool caps [HumanMessage text] with
    | Raised e => Raised e
    | Returned _ =>
      match analyze_chain caps [HumanMessage text] with
      | Raised e => Raised e
      | Returned _ => Returned ["search"; "answer"]%string
      end
    end.
Proof.
  unfold analyze_trace, invoke. rewrite apply_update_input.
  change (next_node (_build_graph caps) START
            {| messages := [HumanMessage text]; dummy_data := [] |})
    with (@Returned Exn string "search"%string).
  unfold bind at 2. unfold recursion_limit.
  cbn [run String.eqb Ascii.eqb Bool.eqb END].
  change (assoc "search" (nodes (_build_graph caps))) with (Some (_search_node caps)).
  cbv beta iota. unfold _search_node at 1. cbn [messages].
  destruct (llm_tool caps [HumanMessage text]) as [m|e]; [|reflexivity].
  cbn [bind]. rewrite apply_update_context.
  change (next_node (_build_graph caps) "search"
            {| messages := [HumanMessage text]; dummy_data := [] |})
    with (_custom_tools_condition
            {| messages := [HumanMessage text]; dummy_data := [] |}).
  rewrite condition_on_human. cbn [bind].
  cbn [run String.eqb Ascii.eqb Bool.eqb END].
  change (assoc "answer" (nodes (_build_graph caps))) with (Some (_answer_node caps)).
  cbv beta iota. unfold _answer_node at 1. cbn [messages].
  destruct (analyze_chain caps [HumanMessage text]) as [m'|e]; [|reflexivity].
  cbn [bind]. rewrite apply_update_answer.
  reflexivity.
Qed.

(** ** The shape of the graph *)

Lemma route_cases (a b : string) :
  route (_build_graph caps) a b ->
  (a = START /\ b = "search"%string) \/
  (a = "search"%string /\ (b = "tools"%string \/ b = "answer"%string)) \/
  (a = "tools"%string /\ b = "answer"%string) \/
  (a = "answer"%string /\ b = END).
Proof.
  intros [Hin | (path & st & Hin & Hpath)].
  - simpl in Hin.
    destruct Hin as [[= <- <-] | [[= <- <-] | [[= <- <-] | []]]]; auto 10.
  - simpl in Hin. destruct Hin as [[= <- <-] | []].
    apply condition_range in Hpath. auto.
Qed.

Lemma route_rank (a b : string) :
  route (_build_graph caps) a b -> (rank a < rank b)%nat.
Proof.
  intros H. apply route_cases in H.
  destruct H as [[-> ->] | [[-> [-> | ->]] | [[-> ->] | [-> ->]]]];
    vm_compute; lia.
Qed.

Lemma tc_route_rank (a b : string) :
  tc (route (_build_graph caps)) a b -> (rank a < rank b)%nat.
Proof.
  induction 1 as [a b H | a b c H _ IH].
  - apply route_rank, H.
  - apply route_rank in H. lia.
Qed.

Lemma walk_ranks (a : string) (l : list string) :
  walk (_build_graph caps) a l ->
  Forall (fun y => (rank a <= rank y)%nat) l /\
  StronglySorted (fun x y => (rank x < rank y)%nat) l.
Proof.
  induction 1 as [a | a b l Hab _ [IH1 IH2]].
  - split; repeat constructor.
  - apply route_rank in Hab. split.
    + constructor; [lia|]. eapply Forall_impl; [exact IH1|]. simpl. intros; lia.
    + constructor; [exact IH2|]. eapply Forall_impl; [exact IH1|]. simpl. intros; lia.
Qed.

Lemma sorted_ranks_NoDup (l : list string) :
  StronglySorted (fun x y => (rank x < rank y)%nat) l -> List.NoDup l.
Proof.
  induction 1 as [|x l _ IH Hx]; constructor; [|exact IH].
  intros Hin. rewrite List.Forall_forall in Hx. specialize (Hx x Hin). lia.
Qed.

(** C4: the graph has the nodes search, tools and answer and no other; the
    entry point leads to search and only there; search leads to tools or to
    answer; tools leads to answer and only there; answer leads to the end and
    only there; no node can be reached from itself; no walk from the entry
    point meets a node twice, so tools is met at most once; and a run of
    [analyze_text] in which the capabilities return ends after the answer
    node, within the recursion limit. *)
Theorem analysis_graph_is_a_dag :
  map fst (nodes (_build_graph caps)) = ["search"; "tools"; "answer"]%string /\
  (forall b, route (_build_graph caps) START b <-> b = "search"%string) /\
  (forall b, route (_build_graph caps) "search" b ->
             b = "tools"%string \/ b = "answer"%string) /\
  (forall b, route (_build_graph caps) "tools" b <-> b = "answer"%string) /\
  (forall b, route (_build_graph caps) "answer" b <-> b = END) /\
  (forall a, ~ tc (route (_build_graph caps)) a a) /\
  (forall l, walk (_build_graph caps) START l ->
             List.NoDup l /\ (count_occ string_dec l "tools"%string <= 1)%nat) /\
  (forall text,
      (exists e, analyze_trace caps text = Raised e /\
                 (llm_tool caps [HumanMessage text] = Raised e \/
                  analyze_chain caps [HumanMessage text] = Raised e)) \/
      (exists trace, analyze_trace caps text = Returned trace /\
                     last trace = Some "answer"%string /\
                     (count_occ string_dec trace "tools"%string <= 1)%nat)).
Proof.
  split; [reflexivity|].
  split; [|split; [|split; [|split; [|split; [|split]]]]].
  - intros b. split.
    + intros H. apply route_cases in H.
      destruct H as [[_ ->] | [[[=] _] | [[[=] _] | [[=] _]]]]. reflexivity.
    + intros ->. left. simpl. auto.
  - intros b H. apply route_cases in H.
    destruct H as [[[=] _] | [[_ H] | [[[=] _] | [[=] _]]]]. exact H.
  - intros b. split.
    + intros H. apply route_cases in H.
      destruct H as [[[=] _] | [[[=] _] | [[_ ->] | [[=] _]]]]. reflexivity.
    + intros ->. left. simpl. auto.
  - intros b. split.
    + intros H. apply route_cases in H.
      destruct H as [[[=] _] | [[[=] _] | [[[=] _] | [_ ->]]]]. reflexivity.
    + intros ->. left. simpl. auto.
  - intros a H. apply tc_route_rank in H. lia.
  - intros l H. apply walk_ranks in H as [_ H].
    apply sorted_ranks_NoDup in H. split; [exact H|].
    apply (proj1 (List.NoDup_count_occ string_dec l) H).
  - intros text. rewrite analyze_trace_eq.
    destruct (llm_tool caps [HumanMessage text]) as [m|e]; [|left; eauto].
    destruct (analyze_chain caps [HumanMessage text]) as [m'|e]; [|left; eauto].
    right. eexists. split; [reflexivity|]. split; [reflexivity|].
    vm_compute. lia.
Qed.

End GraphProperties.

Section GraphScenario.
Import Py Graph Scenario.

(** C3 (the code at the failing input): the search step produces an assistant
    message that carries a tool call; the message is written under the key
    "context", which is no channel of the state, so the conditional edge
    reads the human message and goes to the answer node; the tools node is
    not run. *)
Theorem tool_call_is_not_routed :
  llm_tool asks_for_search [HumanMessage transcript] = Returned search_message /\
  additional_kwargs search_message !! "tool_calls"%string = Some [search_request] /\
  state_after_search asks_for_search transcript
  = Returned {| messages := [HumanMessage transcript]; dummy_data := [] |} /\
  route_after_search asks_for_search transcript = Returned "answer"%string /\
  analyze_trace asks_for_search transcript = Returned ["search"; "answer"]%string.
Proof.
  split; [reflexivity|].
  split; [apply lookup_singleton_eq|].
  split; [rewrite state_after_search_eq; reflexivity|].
  split; [apply (route_after_search_answer asks_for_search transcript search_message);
          reflexivity|].
  rewrite analyze_trace_eq. reflexivity.
Qed.

End GraphScenario.


(* ===================================================================== *)
(** * Further properties of the transcription *)
(* ===================================================================== *)

Section TranscriptionPaths.
Import Py Voice.

Variable Sample : Type.
Variable sv : Services Sample.
Variable lang : option str.

Implicit Types (audio chunk : list Sample).

Lemma short_audio_iff audio : (duration audio <= 30)%Q <-> len audio <= 16000 * 30.
Proof. unfold Qle, duration, seconds, sample_rate. simpl. lia. Qed.

(** X1: a readable file of at most 30 seconds (30 seconds included) is
    transcribed by one call of the model on the whole buffer; the answer is
    returned as it is, a failure of that call that is an instance of
    [Exception] is raised as an [Exception] whose message is the prefix and
    the message of the failure, and any other failure is raised as it is. *)
Theorem short_audio_single_call (path : str) audio :
  path_exists sv path = true ->
  librosa_load sv path = Returned audio ->
  (duration audio <= 30)%Q ->
  transcribe_audio sv path lang
  = match model_transcribe sv 0 audio lang with
    | Returned r => Returned r
    | Raised e =>
      if is_Exception (exn_class e)
      then Raised {| exn_class := "Exception";
                     message := py "음성 인식 실패: " ++ message e |}
      else Raised e
    end.
Proof.
  intros Hex Hload Hshort. apply short_audio_iff in Hshort.
  unfold transcribe_audio. rewrite Hex, Hload. simpl.
  destruct (Z.gtb_spec (len audio) (16000 * 30)); [lia|].
  destruct (model_transcribe sv 0 audio lang); reflexivity.
Qed.

(** X2: what [transcribe_audio] can raise.  A missing file raises
    [FileNotFoundError] with the path in its message.  A failure of the
    decoder, or of the single call on a short buffer, that is an instance of
    [Exception] is raised as an [Exception] whose message is the prefix
    followed by the message of the failure.  Anything else raised is no
    instance of [Exception] and is raised as it is: by the decoder, by the
    single call on a short buffer, or by a call on a window of a long one.
    On the chunked path no instance of [Exception] is raised. *)
Theorem transcribe_audio_errors (path : str) (e : Exn) :
  transcribe_audio sv path lang = Raised e ->
  (path_exists sv path = false /\
   e = {| exn_class := "FileNotFoundError";
          message := py "파일을 찾을 수 없습니다: " ++ path |}) \/
  (path_exists sv path = true /\
   exn_class e = "Exception"%string /\
   exists e0,
     is_Exception (exn_class e0) = true /\
     message e = py "음성 인식 실패: " ++ message e0 /\
     (librosa_load sv path = Raised e0 \/
      exists audio,
        librosa_load sv path = Returned audio /\
        (duration audio <= 30)%Q /\
        model_transcribe sv 0 audio lang = Raised e0)) \/
  (path_exists sv path = true /\
   is_Exception (exn_class e) = false /\
   (librosa_load sv path = Raised e \/
    exists audio,
      librosa_load sv path = Returned audio /\
      ((duration audio <= 30)%Q /\ model_transcribe sv 0 audio lang = Raised e \/
       (30 < duration audio)%Q /\
       exists (k : nat) chunk, model_transcribe sv k chunk lang = Raised e))).
Proof.
  unfold transcribe_audio, try_except.
  destruct (path_exists sv path) eqn:Hex; cbn [negb].
  2:{ intros [= <-]. left. auto. }
  intros H. right.
  destruct (librosa_load sv path) as [audio|e0] eqn:Hload; cbn [bind] in H.
  - destruct (Z.gtb_spec (len audio) (16000 * 30)) as [Hlong|Hshort].
    + destruct (_process_long_audio sv audio lang) as [t|e0] eqn:Hp; [discriminate|].
      destruct (process_long_audio_raised _ sv lang audio e0 Hp) as (Hc & Hcall).
      rewrite Hc in H. injection H as <-.
      right. split; [reflexivity|]. split; [exact Hc|].
      right. exists audio. split; [reflexivity|]. right.
      split; [apply long_audio_iff; lia|exact Hcall].
    + destruct (model_transcribe sv 0 audio lang) as [r|e0] eqn:Hcall; [discriminate|].
      destruct (is_Exception (exn_class e0)) eqn:Hc; injection H as <-.
      * left. split; [reflexivity|]. split; [reflexivity|].
        exists e0. split; [exact Hc|]. split; [reflexivity|].
        right. exists audio. rewrite short_audio_iff. auto.
      * right. split; [reflexivity|]. split; [exact Hc|].
        right. exists audio. split; [reflexivity|]. left.
        rewrite short_audio_iff. auto.
  - destruct (is_Exception (exn_class e0)) eqn:Hc; injection H as <-.
    + left. split; [reflexivity|]. split; [reflexivity|]. exists e0. auto.
    + right. split; [reflexivity|]. split; [exact Hc|]. left. reflexivity.
Qed.

End TranscriptionPaths.

Section StitchingProperties.
Import Py Voice Stitching.

Variable Sample : Type.
Variable sv : Services Sample.
Variable lang : option str.

Implicit Types (audio chunk : list Sample) (st : LoopState)
  (log : list (list Sample)).

(** ** When no call fails, every segment is in its place *)

Lemma same_segment_adjusted (off off' : Q) (s : Segment) :
  (off == off')%Q -> same_segment (adjusted_segment off s) (adjusted_segment off' s).
Proof.
  intros H. unfold same_segment, Float.add. simpl.
  split; [|split; [|reflexivity]]; apply round_proper; rewrite H; reflexivity.
Qed.

Lemma same_segments_adjusted (off off' : Q) (l : list Segment) :
  (off == off')%Q ->
  Forall2 same_segment (map (adjusted_segment off) l) (map (adjusted_segment off') l).
Proof.
  intros H. induction l as [|s l IH]; simpl; constructor;
    [apply same_segment_adjusted, H|exact IH].
Qed.

Lemma seconds_whole (i : Z) :
  (seconds (i * chunk_samples) == inject_Z (chunk_length * i))%Q.
Proof.
  unfold seconds, Qeq, chunk_samples, chunk_length, sample_rate. simpl. lia.
Qed.

(** A window that is not the last is passed to the model. *)
Lemma full_window_kept audio (i : Z) :
  0 <= i < total_chunks audio - 1 -> too_short (chunk_audio audio i) = false.
Proof.
  intros Hi. apply not_true_iff_false. rewrite too_short_iff.
  rewrite (len_chunk_audio_full _ audio i Hi), chunk_samples_eq. lia.
Qed.

Lemma end_sample_full audio (i : Z) :
  0 <= i < total_chunks audio - 1 -> end_sample audio i = (i + 1) * chunk_samples.
Proof.
  intros Hi.
  pose proof (len_chunk_audio_full _ audio i Hi) as Hfull.
  destruct (len_chunk_audio _ audio i ltac:(lia)) as (Hlen & _ & _).
  rewrite Hlen in Hfull. unfold start_sample in Hfull. lia.
Qed.

Section AllAnswered.

Variable answer : nat -> list Sample -> Transcription.
Hypothesis answered :
  forall (k : nat) chunk, model_transcribe sv k chunk lang = Returned (answer k chunk).

(** X3: when every call of the model returns, [_process_long_audio] returns,
    and its segments are the segments of the windows passed to the model,
    in the order of the windows, each with its times increased, in float
    arithmetic, by the start of its window (30 seconds times the index of the
    window). *)
Theorem answered_windows_are_in_place audio :
  exists t,
    _process_long_audio sv audio lang = Returned t /\
    Forall2 same_segment (segments t) (timeline answer audio).
Proof.
  unshelve epose proof (process_long_audio_rule _ sv lang audio
    (fun k st log =>
       Forall2 same_segment (full_segments st)
         (flat_map (placed answer audio)
            (List.filter (fun i => negb (too_short (chunk_audio audio i)))
                         (range (Z.of_nat k)))) /\
       (Z.of_nat k <= total_chunks audio - 1 ->
        length log = k /\
        (current_time_offset st == inject_Z (chunk_length * Z.of_nat k))%Q))
    _ _ _ _) as H.
  - split; [constructor|]. intros _. split; reflexivity.
  - intros k st log Hk (Hsegs & Hstate) Hshort.
    rewrite range_S, List.filter_app, flat_map_app.
    cbn [List.filter]. rewrite Hshort. cbn [negb flat_map]. rewrite app_nil_r.
    split; [exact Hsegs|]. intros Hnext.
    rewrite (full_window_kept audio (Z.of_nat k)) in Hshort by lia.
    discriminate.
  - intros k st log r Hk (Hsegs & Hstate) Hshort Hcall.
    destruct (Hstate ltac:(lia)) as (Hcalls & Hoff).
    rewrite answered in Hcall. injection Hcall as <-.
    cbn [full_segments current_time_offset].
    rewrite range_S, List.filter_app, flat_map_app.
    cbn [List.filter]. rewrite Hshort. cbn [negb flat_map]. rewrite app_nil_r.
    split.
    + apply Forall2_app; [exact Hsegs|].
      unfold segments_part, placed. rewrite Hcalls, Nat2Z.id.
      apply same_segments_adjusted, Hoff.
    + intros Hnext. split; [rewrite length_app, Hcalls; simpl; lia|].
      rewrite (end_sample_full audio (Z.of_nat k)) by lia.
      rewrite seconds_whole. f_equiv. lia.
  - intros k st log e _ _ _ Hcall _. rewrite answered in Hcall. discriminate.
  - destruct (_process_long_audio sv audio lang) as [t|e].
    + destruct H as (st & (Hsegs & _) & ->). eexists. split; [reflexivity|].
      unfold timeline, kept_windows. cbn [segments].
      rewrite Z2Nat.id in Hsegs by apply total_chunks_nonneg. exact Hsegs.
    + destruct H as (_ & j & chunk & Hcall). rewrite answered in Hcall. discriminate.
Qed.

End AllAnswered.

(** ** Where a returned segment comes from *)

(** X4: every segment [_process_long_audio] returns is a segment of an
    answer of the model moved in time: it has the text of that segment, its
    start and its end are those of that segment increased, in float
    arithmetic, by one offset that is not negative, and it ends no earlier
    than it starts when that segment does. *)
Theorem stitched_segments_keep_shape audio :
  match _process_long_audio sv audio lang with
  | Returned t =>
    Forall (fun s =>
              exists (j : nat) chunk r s0 (off : Q),
                model_transcribe sv j chunk lang = Returned r /\
                In s0 (segments r) /\
                seg_text s = seg_text s0 /\
                (0 <= off)%Q /\
                start s = Float.add (start s0) off /\
                end_ s = Float.add (end_ s0) off /\
                ((start s0 <= end_ s0)%Q -> (start s <= end_ s)%Q))
           (segments t)
  | Raised e =>
    is_Exception (exn_class e) = false /\
    exists (k : nat) chunk, model_transcribe sv k chunk lang = Raised e
  end.
Proof.
  unshelve epose proof (process_long_audio_rule _ sv lang audio
    (fun _ st _ =>
       (0 <= current_time_offset st)%Q /\
       Forall (fun s =>
                 exists (j : nat) chunk r s0 (off : Q),
                   model_transcribe sv j chunk lang = Returned r /\
                   In s0 (segments r) /\ (0 <= off)%Q /\
                   s = adjusted_segment off s0)
              (full_segments st))
    _ _ _ _) as H.
  - split; [apply Qle_refl|constructor].
  - intros k st log _ HP _. exact HP.
  - intros k st log r _ (Hoff & Hsegs) _ Hcall.
    cbn [full_segments current_time_offset]. split.
    + pose proof (len_nonneg _ audio) as Hl.
      apply Qle_trans with (seconds 0); [unfold seconds, Qle; simpl; lia|].
      apply seconds_le. unfold end_sample. rewrite chunk_samples_eq. lia.
    + apply Forall_app. split; [exact Hsegs|].
      unfold segments_part. apply List.Forall_forall. intros s Hs.
      apply in_map_iff in Hs as (s0 & <- & Hs0).
      exists (length log), (chunk_audio audio (Z.of_nat k)), r, s0,
        (current_time_offset st). auto.
  - intros k st log e _ HP _ _ _. exact HP.
  - destruct (_process_long_audio sv audio lang) as [t|e]; [|exact H].
    destruct H as (st & (_ & Hsegs) & ->). cbn [segments].
    eapply Forall_impl; [exact Hsegs|].
    intros s (j & chunk & r & s0 & off & Hcall & Hin & Hoff & ->).
    exists j, chunk, r, s0, off. cbn [adjusted_segment start end_ seg_text].
    repeat (split; [assumption || reflexivity|]).
    intros Hle. apply round_mono. lra.
Qed.

(** ** The text of the transcript *)

Lemma drop_while_head (p : Z -> bool) (s : str) (c : Z) (t : str) :
  drop_while p s = c :: t -> p c = false.
Proof.
  induction s as [|a s IH]; simpl; [discriminate|].
  destruct (p a) eqn:Ha; [exact IH|]. intros [= <- _]. exact Ha.
Qed.

Lemma drop_while_suffix (p : Z -> bool) (s : str) :
  exists pre, s = pre ++ drop_while p s.
Proof.
  induction s as [|a s [pre IH]]; simpl; [exists []; reflexivity|].
  destruct (p a); [|exists []; reflexivity].
  exists (a :: pre). simpl. f_equal. exact IH.
Qed.

Lemma drop_while_id (p : Z -> bool) (c : Z) (t : str) :
  p c = false -> drop_while p (c :: t) = c :: t.
Proof. intros H. simpl. rewrite H. reflexivity. Qed.

Lemma forallb_rev_bool (p : Z -> bool) (s : str) :
  forallb p (rev s) = forallb p s.
Proof.
  induction s as [|a s IH]; [reflexivity|]. simpl.
  rewrite forallb_app, IH. simpl. rewrite andb_true_r. apply andb_comm.
Qed.

Lemma strip_nil_iff (s : str) : strip s = [] <-> forallb isspace s = true.
Proof.
  unfold strip. rewrite <- (drop_while_nil_iff isspace s).
  split.
  - intros H. apply (f_equal (@rev Z)) in H. rewrite rev_involutive in H. simpl in H.
    apply drop_while_nil_iff in H. rewrite forallb_rev_bool in H.
    destruct (drop_while isspace s) as [|c t] eqn:E; [reflexivity|].
    apply drop_while_head in E. simpl in H. rewrite E in H. discriminate.
  - intros ->. reflexivity.
Qed.

Lemma strip_head (s : str) (c : Z) (rest : str) :
  strip s = c :: rest -> isspace c = false.
Proof.
  unfold strip. intros H.
  apply (f_equal (@rev Z)) in H. rewrite rev_involutive in H. simpl in H.
  destruct (drop_while_suffix isspace (rev (drop_while isspace s))) as [pre Hpre].
  rewrite H in Hpre.
  apply (f_equal (@rev Z)) in Hpre. rewrite rev_involutive in Hpre.
  rewrite !rev_app_distr, rev_involutive in Hpre. simpl in Hpre.
  eapply drop_while_head. exact Hpre.
Qed.

Lemma strip_last (s : str) (c : Z) (rest : str) :
  strip s = rest ++ [c] -> isspace c = false.
Proof.
  unfold strip. intros H.
  apply (f_equal (@rev Z)) in H. rewrite rev_involutive, rev_app_distr in H.
  simpl in H. eapply drop_while_head. exact H.
Qed.

Lemma strip_trimmed (x : str) :
  (forall c rest, x = c :: rest -> isspace c = false) ->
  (forall c rest, x = rest ++ [c] -> isspace c = false) ->
  strip x = x.
Proof.
  intros Hhd Hlast. unfold strip.
  destruct x as [|c t]; [reflexivity|].
  rewrite (drop_while_id isspace c t (Hhd c t eq_refl)).
  destruct (rev (c :: t)) as [|d u] eqn:E.
  - apply (f_equal (@rev Z)) in E. rewrite rev_involutive in E. discriminate.
  - rewrite drop_while_id.
    + rewrite <- E. apply rev_involutive.
    + apply (Hlast d (rev u)).
      apply (f_equal (@rev Z)) in E. rewrite rev_involutive in E. exact E.
Qed.

Lemma forallb_flat_map {A} (p : Z -> bool) (f : A -> str) (l : list A) :
  forallb p (flat_map f l) = forallb (fun x => forallb p (f x)) l.
Proof.
  induction l as [|a l IH]; [reflexivity|]. simpl.
  rewrite forallb_app, IH. reflexivity.
Qed.

Lemma text_part_blank (o : Outcome Exn Transcription) :
  forallb isspace (text_part o) = true -> text_part o = [].
Proof.
  destruct o as [r|e]; [|reflexivity]. simpl.
  destruct (strip (text r)) as [|c t] eqn:E; [reflexivity|].
  rewrite forallb_app. intros H. apply andb_prop in H as [H _].
  apply strip_nil_iff in H. congruence.
Qed.


(** X5: the text [_process_long_audio] returns neither starts nor ends with
    whitespace, and stripping it again changes nothing; it is empty exactly
    when no call contributed a text, that is when every call failed or
    returned a blank text. *)
Theorem transcript_text_is_trimmed audio :
  match _process_long_audio sv audio lang with
  | Returned t =>
    strip (text t) = text t /\
    (forall c rest, text t = c :: rest -> isspace c = false) /\
    (forall c rest, text t = rest ++ [c] -> isspace c = false) /\
    (text t = [] <-> forall o, In o (outcomes sv audio lang) -> text_part o = [])
  | Raised e =>
    is_Exception (exn_class e) = false /\
    exists (k : nat) chunk, model_transcribe sv k chunk lang = Raised e
  end.
Proof.
  pose proof (process_long_audio_outcomes _ sv lang audio) as H.
  destruct (_process_long_audio sv audio lang) as [t|e]; [|exact H].
  destruct H as [Htext _]. rewrite Htext.
  split; [|split; [|split]].
  - apply strip_trimmed; [apply strip_head|apply strip_last].
  - apply strip_head.
  - apply strip_last.
  - rewrite strip_nil_iff, forallb_flat_map, forallb_forall. split.
    + intros H o Ho. apply text_part_blank, H, Ho.
    + intros H o Ho. rewrite (H o Ho). reflexivity.
Qed.

(** ** A recording whose every window fails *)

(** X8: when the file is readable and longer than 30 seconds, every call of
    the model fails with an instance of [Exception] and the transcript file
    can be written, [process_call_recording] reports success, with an empty
    text, no segment and the path of the file written. *)
Theorem failed_recording_is_reported_as_success
    (path : str) (output_file base_filename : option str) audio (saved : str) :
  path_exists sv path = true ->
  librosa_load sv path = Returned audio ->
  (30 < duration audio)%Q ->
  (forall (k : nat) chunk, exists e,
      model_transcribe sv k chunk lang = Raised e /\
      is_Exception (exn_class e) = true) ->
  save_transcript sv {| text := []; segments := []; language := lang |}
                  output_file base_filename = Returned saved ->
  process_call_recording sv path output_file lang base_filename
  = Returned (CallOk [] [] saved base_filename).
Proof.
  intros Hex Hload Hlong Hfail Hsave.
  unfold process_call_recording.
  rewrite (transcribe_audio_long _ sv lang path audio Hex Hload Hlong).
  rewrite (process_long_audio_all_raised _ sv lang audio Hfail).
  simpl. rewrite Hsave. reflexivity.
Qed.

End StitchingProperties.

Section TranscriptionRequests.
Import Py Voice Stitching Scenario Requests.

Lemma len_audio30 : len audio30 = 30 * 16000.
Proof. unfold len, audio30. rewrite repeat_length. lia. Qed.

Lemma audio30_short : (duration audio30 <= 30)%Q.
Proof. apply short_audio_iff. rewrite len_audio30. lia. Qed.

Lemma short_audio_single_call_witness :
  path_exists (services_on true audio30 fails_second) (py "call.wav") = true /\
  librosa_load (services_on true audio30 fails_second) (py "call.wav")
  = Returned audio30 /\
  (duration audio30 <= 30)%Q /\
  transcribe_audio (services_on true audio30 fails_second) (py "call.wav") ko
  = match model_transcribe (services_on true audio30 fails_second) 0 audio30 ko with
    | Returned r => Returned r
    | Raised e =>
      if is_Exception (exn_class e)
      then Raised {| exn_class := "Exception";
                     message := py "음성 인식 실패: " ++ message e |}
      else Raised e
    end.
Proof.
  split; [reflexivity|]. split; [reflexivity|]. split; [exact audio30_short|].
  exact (short_audio_single_call Z (services_on true audio30 fails_second) ko
           (py "call.wav") audio30 eq_refl eq_refl audio30_short).
Defined.

(** Ctrl-C while the model transcribes a short recording. *)
Lemma interrupted_call_raises :
  transcribe_audio (services_on true [0; 0; 0] interrupted) (py "call.wav") ko
  = Raised keyboard_interrupt.
Proof. reflexivity. Qed.

Lemma transcribe_audio_errors_witness :
  transcribe_audio (services_on true [0; 0; 0] interrupted) (py "call.wav") ko
  = Raised keyboard_interrupt /\
  ((path_exists (services_on true [0; 0; 0] interrupted) (py "call.wav") = false /\
    keyboard_interrupt
    = {| exn_class := "FileNotFoundError";
         message := py "파일을 찾을 수 없습니다: " ++ py "call.wav" |}) \/
   (path_exists (services_on true [0; 0; 0] interrupted) (py "call.wav") = true /\
    exn_class keyboard_interrupt = "Exception"%string /\
    exists e0,
      is_Exception (exn_class e0) = true /\
      message keyboard_interrupt = py "음성 인식 실패: " ++ message e0 /\
      (librosa_load (services_on true [0; 0; 0] interrupted) (py "call.wav")
       = Raised e0 \/
       exists audio,
         librosa_load (services_on true [0; 0; 0] interrupted) (py "call.wav")
         = Returned audio /\
         (duration audio <= 30)%Q /\
         model_transcribe (services_on true [0; 0; 0] interrupted) 0 audio ko
         = Raised e0)) \/
   (path_exists (services_on true [0; 0; 0] interrupted) (py "call.wav") = true /\
    is_Exception (exn_class keyboard_interrupt) = false /\
    (librosa_load (services_on true [0; 0; 0] interrupted) (py "call.wav")
     = Raised keyboard_interrupt \/
     exists audio,
       librosa_load (services_on true [0; 0; 0] interrupted) (py "call.wav")
       = Returned audio /\
       ((duration audio <= 30)%Q /\
        model_transcribe (services_on true [0; 0; 0] interrupted) 0 audio ko
        = Raised keyboard_interrupt \/
        (30 < duration audio)%Q /\
        exists (k : nat) chunk,
          model_transcribe (services_on true [0; 0; 0] interrupted) k chunk ko
          = Raised keyboard_interrupt)))).
Proof.
  split; [exact interrupted_call_raises|].
  exact (transcribe_audio_errors Z (services_on true [0; 0; 0] interrupted) ko
           (py "call.wav") _ interrupted_call_raises).
Defined.

Lemma answered_windows_are_in_place_witness :
  (forall (k : nat) (chunk : list Z),
      model_transcribe (services (always_answers third_answer)) k chunk ko
      = Returned third_answer) /\
  exists t,
    _process_long_audio (services (always_answers third_answer)) audio75 ko
    = Returned t /\
    Forall2 same_segment (segments t) (timeline (fun _ _ => third_answer) audio75).
Proof.
  split; [reflexivity|].
  exact (answered_windows_are_in_place Z (services (always_answers third_answer)) ko
           (fun _ _ => third_answer) (fun _ _ => eq_refl) audio75).
Defined.

Lemma failed_recording_is_reported_as_success_witness :
  path_exists (services always_fails) (py "call.wav") = true /\
  librosa_load (services always_fails) (py "call.wav") = Returned audio75 /\
  (30 < duration audio75)%Q /\
  (forall (k : nat) (chunk : list Z),
      exists e,
        model_transcribe (services always_fails) k chunk ko = Raised e /\
        is_Exception (exn_class e) = true) /\
  save_transcript (services always_fails)
                  {| text := []; segments := []; language := ko |}
                  None (Some (py "call.wav"))
  = Returned (py "src/text/call.wav.txt") /\
  process_call_recording (services always_fails) (py "call.wav") None ko
                         (Some (py "call.wav"))
  = Returned (CallOk [] [] (py "src/text/call.wav.txt") (Some (py "call.wav"))).
Proof.
  split; [reflexivity|]. split; [reflexivity|]. split; [exact audio75_long|].
  split; [intros k chunk; exists out_of_memory; split; reflexivity|].
  split; [reflexivity|].
  exact (failed_recording_is_reported_as_success Z (services always_fails) ko
           (py "call.wav") None (Some (py "call.wav")) audio75
           (py "src/text/call.wav.txt") eq_refl eq_refl audio75_long
           (fun k chunk => ex_intro _ out_of_memory (conj eq_refl eq_refl)) eq_refl).
Defined.

End TranscriptionRequests.

(* ===================================================================== *)
(** * Decimal text: [str] of an integer read back by [int] *)
(* ===================================================================== *)

Section DecimalText.
Import Py Detector Voice Spec Formats.

Lemma py_cons_ascii (a : ascii) (s : string) :
  (N_of_ascii a < 128)%N ->
  py (String a s) = Z.of_N (N_of_ascii a) :: py s.
Proof.
  intros Ha. unfold py. simpl.
  destruct (Z.ltb_spec (Z.of_N (N_of_ascii a)) 128); [reflexivity|lia].
Qed.

Lemma py_string_of_uint (d : Decimal.uint) :
  py (NilEmpty.string_of_uint d) = uint_chars d.
Proof.
  induction d; simpl NilEmpty.string_of_uint; simpl uint_chars;
    [reflexivity|..];
    (rewrite py_cons_ascii by (vm_compute; reflexivity));
    rewrite IHd; reflexivity.
Qed.

Lemma string_of_uint_nonnil (d : Decimal.uint) :
  d <> Decimal.Nil -> NilZero.string_of_uint d = NilEmpty.string_of_uint d.
Proof. destruct d; [congruence|..]; reflexivity. Qed.

(** The text of an integer: an optional minus sign and its decimal numeral. *)
Lemma str_of_int_chars (n : Z) :
  str_of_int n =
  match n with
  | 0 => [48]
  | Zpos p => uint_chars (Pos.to_uint p)
  | Zneg p => 45 :: uint_chars (Pos.to_uint p)
  end.
Proof.
  unfold str_of_int. destruct n as [|p|p]; [reflexivity|..]; simpl Z.to_int.
  - simpl NilZero.string_of_int.
    rewrite string_of_uint_nonnil by apply DecimalPos.Unsigned.to_uint_nonnil.
    apply py_string_of_uint.
  - simpl NilZero.string_of_int.
    rewrite py_cons_ascii by (vm_compute; reflexivity).
    rewrite string_of_uint_nonnil by apply DecimalPos.Unsigned.to_uint_nonnil.
    rewrite py_string_of_uint. reflexivity.
Qed.

Lemma len_uint_chars (d : Decimal.uint) :
  len (uint_chars d) = Z.of_nat (Decimal.nb_digits d).
Proof.
  unfold len. induction d; simpl; [reflexivity|..]; lia.
Qed.

Lemma uint_chars_numeral (d : Decimal.uint) :
  forallb numeral_char (uint_chars d) = true.
Proof. induction d; simpl; auto. Qed.

Lemma str_of_int_numeral (n : Z) : forallb numeral_char (str_of_int n) = true.
Proof.
  rewrite str_of_int_chars. destruct n; simpl; auto using uint_chars_numeral.
Qed.

Lemma numeral_char_cases (c : Z) :
  numeral_char c = true ->
  c = 45 \/ c = 48 \/ c = 49 \/ c = 50 \/ c = 51 \/ c = 52 \/ c = 53 \/ c = 54
  \/ c = 55 \/ c = 56 \/ c = 57.
Proof. unfold numeral_char. lia. Qed.

Lemma numeral_char_plain (c : Z) :
  numeral_char c = true -> not_linebreak c = true /\ not_colon c = true.
Proof.
  intros H. apply numeral_char_cases in H.
  repeat (destruct H as [-> | H]); [..|subst c]; split; reflexivity.
Qed.

Lemma forallb_impl_bool (p q : Z -> bool) (s : str) :
  (forall c, p c = true -> q c = true) -> forallb p s = true -> forallb q s = true.
Proof.
  intros Hpq. rewrite !forallb_forall. auto.
Qed.

(** [int] reads the digits of a numeral from left to right. *)
Lemma int_digits_uint_chars (d : Decimal.uint) :
  forall (acc n : Z) (rest : str),
    int_digits acc n (uint_chars d ++ rest)
    = int_digits (uint_value acc d) (n + Z.of_nat (Decimal.nb_digits d)) rest.
Proof.
  induction d; intros acc n rest; simpl uint_chars; simpl uint_value;
    [simpl; f_equal; lia|..];
    (rewrite <- app_comm_cons; unfold int_digits; fold int_digits;
     match goal with
     | |- context [decimal ?c] =>
       change (decimal c) with (Some (c - 48)); cbv beta iota
     end;
     rewrite IHd; f_equal;
     simpl Decimal.nb_digits; lia).
Qed.

Lemma uint_value_acc (d : Decimal.uint) (acc : positive) :
  uint_value (Zpos acc) d = Zpos (Pos.of_uint_acc d acc).
Proof.
  revert acc. induction d; intros acc; simpl; [reflexivity|..];
    rewrite <- IHd; f_equal; lia.
Qed.

Lemma uint_value_of_uint (d : Decimal.uint) :
  uint_value 0 d = Z.of_N (Pos.of_uint d).
Proof.
  induction d; simpl; [reflexivity|exact IHd|..];
    match goal with
    | |- _ = Z.pos (Pos.of_uint_acc _ ?k) => exact (uint_value_acc d k)
    end.
Qed.

Lemma int_from_digit (c k : Z) (t : str) :
  decimal c = Some k ->
  int (c :: t)
  = match int_digits k 1 t with
    | None => Raised ValueError
    | Some (v, n) =>
      if n >? int_max_str_digits then Raised ValueError else Returned (1 * v)
    end.
Proof.
  intros Hk. destruct (decimal_facts c k Hk) as (Hsp & _ & H43 & H45).
  unfold int. simpl drop_while. rewrite Hsp.
  destruct (Z.eqb_spec c 43); [congruence|].
  destruct (Z.eqb_spec c 45); [congruence|].
  rewrite Hk. reflexivity.
Qed.

Lemma int_from_minus (c k : Z) (t : str) :
  decimal c = Some k ->
  int (45 :: c :: t)
  = match int_digits k 1 t with
    | None => Raised ValueError
    | Some (v, n) =>
      if n >? int_max_str_digits then Raised ValueError else Returned (-1 * v)
    end.
Proof. intros Hk. unfold int. simpl. rewrite Hk. reflexivity. Qed.

Lemma uint_chars_first (d : Decimal.uint) :
  d <> Decimal.Nil ->
  exists c k t,
    uint_chars d = c :: t /\ decimal c = Some k /\
    int_digits k 1 t = int_digits 0 0 (uint_chars d).
Proof.
  destruct d; [congruence|..]; intros _; simpl uint_chars;
    eexists _, _, _; (split; [reflexivity|]); split; reflexivity.
Qed.

Lemma int_digits_numeral (d : Decimal.uint) :
  int_digits 0 0 (uint_chars d)
  = Some (Z.of_N (Pos.of_uint d), Z.of_nat (Decimal.nb_digits d)).
Proof.
  rewrite <- (app_nil_r (uint_chars d)), int_digits_uint_chars.
  simpl. rewrite uint_value_of_uint. reflexivity.
Qed.

(** [int(str(n))]: the integer itself, unless it has more digits than [int]
    accepts. *)
Lemma int_str_of_int (n : Z) :
  int (str_of_int n)
  = if decimal_digits n >? int_max_str_digits then Raised ValueError
    else Returned n.
Proof.
  unfold decimal_digits. rewrite !str_of_int_chars.
  destruct n as [|p|p]; [reflexivity|..]; unfold Z.abs; cbv beta iota;
    rewrite len_uint_chars;
    destruct (uint_chars_first (Pos.to_uint p)
                (DecimalPos.Unsigned.to_uint_nonnil p)) as (c & k & t & E & Hk & Hd);
    rewrite E; [rewrite (int_from_digit c k t Hk)|rewrite (int_from_minus c k t Hk)];
    rewrite Hd, int_digits_numeral, DecimalPos.Unsigned.of_to;
    destruct (_ >? _); reflexivity.
Qed.

Lemma take_while_all (p : Z -> bool) (s : str) :
  forallb p s = true -> take_while p s = s.
Proof.
  induction s as [|c t IH]; [reflexivity|]. simpl. intros H.
  apply andb_prop in H as [Hc Ht]. rewrite Hc, IH; auto.
Qed.

Lemma int_skip_space (s : str) : int (32 :: s) = int s.
Proof. reflexivity. Qed.

Lemma score_field_after_label (value : str) :
  forallb not_colon value = true ->
  score_field (py "score: " ++ value) = Some (32 :: value).
Proof.
  intros H. unfold score_field, after_first_colon.
  change (drop_while not_colon (py "score: " ++ value)) with (58 :: 32 :: value).
  cbv beta iota.
  change (take_while not_colon (32 :: value))
    with (32 :: take_while not_colon value).
  rewrite (take_while_all _ _ H). reflexivity.
Qed.

(** X9: for every integer [n], in or out of [0,10], negative or not, the
    text whose first line is "score: " followed by the decimal numeral of
    [n] parses to [n]; the only integers refused are those of more than 4300
    digits, for which the parser raises [ValueError]. *)
Theorem score_round_trip_any_integer (n : Z) (rest : str) :
  risk_score (py "score: " ++ str_of_int n ++ [10] ++ rest)
  = if decimal_digits n >? int_max_str_digits then Raised ValueError
    else Returned n.
Proof.
  rewrite risk_score_unfold.
  rewrite app_assoc. change ([10] ++ rest) with (10 :: rest).
  pose proof (str_of_int_numeral n) as Hnum.
  assert (Hlb : forallb not_linebreak (str_of_int n) = true).
  { eapply forallb_impl_bool; [|exact Hnum]. intros c Hc.
    apply numeral_char_plain, Hc. }
  assert (Hcolon : forallb not_colon (str_of_int n) = true).
  { eapply forallb_impl_bool; [|exact Hnum]. intros c Hc.
    apply numeral_char_plain, Hc. }
  rewrite first_line_newline
    by (rewrite forallb_app, Hlb; reflexivity).
  rewrite (score_field_after_label _ Hcolon), int_skip_space.
  apply int_str_of_int.
Qed.

End DecimalText.

(* ===================================================================== *)
(** * The MM:SS format and the transcript file *)
(* ===================================================================== *)

Section TimeFormat.
Import Py Voice Spec Formats.

Lemma Qfloor_div_60 (s : Q) : Qfloor (s / 60) = Qfloor s / 60.
Proof.
  destruct s as [a b]. unfold Qdiv, Qmult, Qinv. simpl.
  rewrite Z.mul_1_r, Pos2Z.inj_mul, Z.div_div by lia. reflexivity.
Qed.

Lemma Qfloor_add_Z (s : Q) (z : Z) : Qfloor (s + inject_Z z) = Qfloor s + z.
Proof.
  destruct s as [a b]. unfold Qplus, inject_Z. simpl.
  rewrite Z.mul_1_r, Pos.mul_1_r. apply Z.div_add. lia.
Qed.

Lemma Qfloor_minus_minutes (s : Q) (m : Z) :
  Qfloor (s - 60 * inject_Z m) = Qfloor s - 60 * m.
Proof.
  assert (E : (s - 60 * inject_Z m == s + inject_Z (- (60 * m)))%Q).
  { rewrite inject_Z_opp, inject_Z_mult. change (inject_Z 60) with 60%Q. ring. }
  rewrite E, Qfloor_add_Z. lia.
Qed.

(** [format_time] shows the whole seconds: minutes, a colon, seconds below
    sixty. *)
Lemma format_time_floor (s : Q) :
  format_time s
  = format_02d (Qfloor s / 60) ++ py ":" ++ format_02d (Qfloor s mod 60).
Proof.
  unfold format_time. rewrite Qfloor_minus_minutes, Qfloor_div_60.
  rewrite (Z.mod_eq (Qfloor s) 60) by lia. reflexivity.
Qed.

Lemma In_range_intro (n i : Z) : 0 <= i < n -> In i (range n).
Proof.
  intros Hi. unfold range. apply in_map_iff. exists (Z.to_nat i).
  split; [lia|]. apply in_seq. lia.
Qed.

Lemma format_02d_checked :
  forallb (fun m => str_eqb (format_02d m) [48 + m / 10; 48 + m mod 10])
          (range 100) = true.
Proof. vm_compute. reflexivity. Qed.

(** Below one hundred, [f"{m:02d}"] is the two digits of [m]. *)
Lemma format_02d_two_digits (m : Z) :
  0 <= m < 100 -> format_02d m = [48 + m / 10; 48 + m mod 10].
Proof.
  intros Hm. pose proof format_02d_checked as H.
  rewrite forallb_forall in H. specialize (H m (In_range_intro 100 m Hm)).
  unfold str_eqb in H. apply bool_decide_eq_true in H. exact H.
Qed.

(** X6: for a time from 0 up to (not including) 100 minutes, [format_time]
    is five characters: the two digits of the whole minutes, a colon, the two
    digits of the remaining whole seconds, which are below sixty. *)
Theorem format_time_mm_ss (s : Q) :
  (0 <= s)%Q -> (s < 6000)%Q ->
  exists m r,
    0 <= m < 100 /\ 0 <= r < 60 /\ 60 * m + r = Qfloor s /\
    format_time s = [48 + m / 10; 48 + m mod 10; 58; 48 + r / 10; 48 + r mod 10].
Proof.
  intros H0 H1.
  assert (Hfloor : 0 <= Qfloor s < 6000).
  { split.
    - apply Qfloor_resp_le in H0. exact H0.
    - pose proof (Qfloor_le s) as Hle.
      assert (Hlt : (inject_Z (Qfloor s) < inject_Z 6000)%Q)
        by (eapply Qle_lt_trans; [exact Hle|exact H1]).
      rewrite <- Zlt_Qlt in Hlt. exact Hlt. }
  pose proof (Z.div_mod (Qfloor s) 60 ltac:(lia)) as Hdm.
  pose proof (Z.mod_pos_bound (Qfloor s) 60 ltac:(lia)) as Hr.
  assert (Hm : 0 <= Qfloor s / 60 < 100).
  { split; [apply Z.div_pos; lia|apply Z.div_lt_upper_bound; lia]. }
  exists (Qfloor s / 60), (Qfloor s mod 60).
  split; [exact Hm|]. split; [exact Hr|]. split; [lia|].
  rewrite format_time_floor.
  rewrite (format_02d_two_digits _ Hm), (format_02d_two_digits (Qfloor s mod 60))
    by lia.
  reflexivity.
Qed.

Lemma format_time_mm_ss_witness :
  (0 <= 125.7)%Q /\ (125.7 < 6000)%Q /\
  exists m r,
    0 <= m < 100 /\ 0 <= r < 60 /\ 60 * m + r = Qfloor 125.7 /\
    format_time 125.7
    = [48 + m / 10; 48 + m mod 10; 58; 48 + r / 10; 48 + r mod 10].
Proof.
  assert (H0 : (0 <= 125.7)%Q) by (vm_compute; discriminate).
  assert (H1 : (125.7 < 6000)%Q) by reflexivity.
  split; [exact H0|]. split; [exact H1|].
  exact (format_time_mm_ss 125.7 H0 H1).
Defined.

(** ** The transcript file *)

Lemma splitlines_line (l rest : str) :
  forallb not_linebreak l = true ->
  splitlines (l ++ 10 :: rest) = l :: splitlines rest.
Proof.
  induction l as [|c l IH]; intros Hl.
  - simpl. destruct rest; reflexivity.
  - simpl in Hl. apply andb_prop in Hl as [Hc Hl].
    unfold not_linebreak in Hc. apply negb_true_iff in Hc.
    change ((c :: l) ++ 10 :: rest) with (c :: (l ++ 10 :: rest)).
    unfold splitlines; fold splitlines. rewrite Hc, (IH Hl). reflexivity.
Qed.

Lemma format_02d_numeral (m : Z) : forallb numeral_char (format_02d m) = true.
Proof.
  unfold format_02d. pose proof (str_of_int_numeral m) as H.
  destruct (_ <? _); [|exact H].
  change (py "0" ++ str_of_int m) with (48 :: str_of_int m).
  simpl. exact H.
Qed.

Lemma format_time_one_line (s : Q) : forallb not_linebreak (format_time s) = true.
Proof.
  rewrite format_time_floor, !forallb_app.
  rewrite !(forallb_impl_bool numeral_char not_linebreak _
              (fun c Hc => proj1 (numeral_char_plain c Hc)) (format_02d_numeral _)).
  reflexivity.
Qed.

Lemma segment_line_one_line (segment : Segment) :
  forallb not_linebreak (seg_text segment) = true ->
  forallb not_linebreak (segment_line segment) = true.
Proof.
  intros H. unfold segment_line.
  rewrite !forallb_app, !format_time_one_line, H. reflexivity.
Qed.

Lemma splitlines_segment_lines (segs : list Segment) :
  Forall (fun segment => forallb not_linebreak (seg_text segment) = true) segs ->
  splitlines (flat_map (fun segment => segment_line segment ++ [10]) segs)
  = map segment_line segs.
Proof.
  induction 1 as [|segment segs Hseg _ IH]; [reflexivity|].
  cbn [flat_map map]. rewrite <- app_assoc. cbn [app].
  rewrite (splitlines_line _ _ (segment_line_one_line _ Hseg)), IH. reflexivity.
Qed.

Lemma transcript_lines_eq (result : Transcription) :
  transcript_lines result
  = py "세그먼트별 상세:" ++ 10 :: repeat 45 30
    ++ 10 :: flat_map (fun segment => segment_line segment ++ [10]) (segments result).
Proof.
  unfold transcript_lines.
  rewrite (flat_map_ext _ (fun segment => segment_line segment ++ [10])).
  - reflexivity.
  - intros segment. unfold segment_line. rewrite <- !app_assoc. reflexivity.
Qed.

(** The lines of the text [save_transcript] writes. *)
Lemma splitlines_transcript_lines (result : Transcription) :
  Forall (fun segment => forallb not_linebreak (seg_text segment) = true)
         (segments result) ->
  splitlines (transcript_lines result)
  = py "세그먼트별 상세:" :: repeat 45 30 :: map segment_line (segments result).
Proof.
  intros H. rewrite transcript_lines_eq.
  rewrite (splitlines_line (py "세그먼트별 상세:")) by reflexivity.
  rewrite (splitlines_line (repeat 45 30)) by reflexivity.
  rewrite (splitlines_segment_lines _ H). reflexivity.
Qed.

End TimeFormat.

Section TranscriptFile.
Import Py Voice Spec Formats.

Variable Sample : Type.
Variable sv : Services Sample.

(** X7: when [save_transcript] returns a path, the text it wrote to that
    path reads back ([splitlines]) as the heading, the divider of thirty
    dashes, and one line "[MM:SS - MM:SS] text" per segment, in order,
    provided no segment text holds a line boundary; an explicit output file
    is the path returned. *)
Theorem saved_transcript_reads_back
    (result : Transcription) (output_file base_filename : option str) (saved : str) :
  save_transcript sv result output_file base_filename = Returned saved ->
  Forall (fun segment => forallb not_linebreak (seg_text segment) = true)
         (segments result) ->
  (forall f, output_file = Some f -> saved = f) /\
  exists content,
    write_text sv saved content = Returned tt /\
    splitlines content
    = py "세그먼트별 상세:" :: repeat 45 30 :: map segment_line (segments result).
Proof.
  intros Hsave Htexts. unfold save_transcript in Hsave.
  destruct (makedirs sv (py "src/text")) as [[]|e]; [|discriminate].
  simpl in Hsave.
  match type of Hsave with
  | bind (write_text sv ?p ?c) _ = _ =>
    destruct (write_text sv p c) as [[]|e] eqn:Hwrite; [|discriminate]
  end.
  simpl in Hsave. injection Hsave as <-.
  split.
  - intros f ->. reflexivity.
  - eexists. split; [exact Hwrite|].
    apply splitlines_transcript_lines, Htexts.
Qed.

End TranscriptFile.

(* ===================================================================== *)
(** * Further properties of the analysis *)
(* ===================================================================== *)

Section AnalysisResult.
Import Py Graph.

Variable caps : Capabilities.

(** A run of the graph on a transcript, whole. *)
Lemma invoke_transcript (text : str) :
  invoke (_build_graph caps) {[ "messages"%string := VStr text ]}
  = match llm_tool caps [HumanMessage text] with
    | Raised e => Raised e
    | Returned _ =>
      match analyze_chain caps [HumanMessage text] with
      | Raised e => Raised e
      | Returned m =>
        Returned (["search"; "answer"]%string,
                  {| messages := [HumanMessage text; m];
                     dummy_data := [HumanMessage (py "anal step")] |})
      end
    end.
Proof.
  unfold invoke. rewrite apply_update_input.
  change (next_node (_build_graph caps) START
            {| messages := [HumanMessage text]; dummy_data := [] |})
    with (@Returned Exn string "search"%string).
  unfold bind at 1. unfold recursion_limit.
  cbn [run String.eqb Ascii.eqb Bool.eqb END].
  change (assoc "search" (nodes (_build_graph caps))) with (Some (_search_node caps)).
  cbv beta iota. unfold _search_node at 1. cbn [messages].
  destruct (llm_tool caps [HumanMessage text]) as [m|e]; [|reflexivity].
  cbn [bind]. rewrite apply_update_context.
  change (next_node (_build_graph caps) "search"
            {| messages := [HumanMessage text]; dummy_data := [] |})
    with (_custom_tools_condition
            {| messages := [HumanMessage text]; dummy_data := [] |}).
  rewrite condition_on_human. cbn [bind].
  cbn [run String.eqb Ascii.eqb Bool.eqb END].
  change (assoc "answer" (nodes (_build_graph caps))) with (Some (_answer_node caps)).
  cbv beta iota. unfold _answer_node at 1. cbn [messages].
  destruct (analyze_chain caps [HumanMessage text]) as [m'|e]; [|reflexivity].
  cbn [bind]. rewrite apply_update_answer.
  reflexivity.
Qed.

(** X10: [analyze_text] returns the content of the message the scoring chain
    produces from the transcript alone.  The message of the search step is
    used for nothing but its failure, which fails the analysis; the search
    tool is never run and its results never reach the scoring chain. *)
Theorem analyze_text_result (text : str) :
  analyze_text caps text
  = match llm_tool caps [HumanMessage text] with
    | Raised e => Raised e
    | Returned _ =>
      match analyze_chain caps [HumanMessage text] with
      | Raised e => Raised e
      | Returned m => Returned (content m)
      end
    end.
Proof.
  unfold analyze_text. rewrite invoke_transcript.
  destruct (llm_tool caps [HumanMessage text]) as [m|e]; [|reflexivity].
  destruct (analyze_chain caps [HumanMessage text]) as [m'|e]; reflexivity.
Qed.

End AnalysisResult.

Section TranscriptFileRequests.
Import Py Voice Spec Formats Scenario.

Lemma saved_transcript_reads_back_witness :
  save_transcript (services fails_second) third_answer None (Some (py "call.wav"))
  = Returned (py "src/text/call.wav.txt") /\
  Forall (fun segment => forallb not_linebreak (seg_text segment) = true)
         (segments third_answer) /\
  (forall f, None = Some f -> py "src/text/call.wav.txt" = f) /\
  exists content,
    write_text (services fails_second) (py "src/text/call.wav.txt") content
    = Returned tt /\
    splitlines content
    = py "세그먼트별 상세:" :: repeat 45 30 :: map segment_line (segments third_answer).
Proof.
  split; [reflexivity|]. split; [repeat constructor|].
  apply (saved_transcript_reads_back Z (services fails_second) third_answer None
           (Some (py "call.wav")) (py "src/text/call.wav.txt"));
    [reflexivity | repeat constructor].
Defined.

End TranscriptFileRequests.

(* ===================================================================== *)
(** * Properties of the results page *)
(* ===================================================================== *)

Section PageProperties.
Import Py Detector Voice Graph Spec Formats Page.

(** ** The keyword box *)

Lemma contains_skip (c : Z) (needle prefix rest : str) :
  forallb (fun a => negb (c =? a)) prefix = true ->
  contains (c :: needle) (prefix ++ rest) = contains (c :: needle) rest.
Proof.
  induction prefix as [|a prefix IH]; intros H; [reflexivity|].
  simpl in H. apply andb_prop in H as [Ha Hp].
  change ((a :: prefix) ++ rest) with (a :: (prefix ++ rest)).
  cbn [contains starts_with].
  apply negb_true_iff in Ha. rewrite Ha. simpl. apply IH, Hp.
Qed.

(** A keyword that starts outside ASCII is not found in ASCII text. *)
Lemma contains_skip_ascii (needle prefix rest : str) :
  match needle with
  | c :: _ => 128 <=? c
  | [] => false
  end = true ->
  forallb (fun a => a <? 128) prefix = true ->
  contains needle (prefix ++ rest) = contains needle rest.
Proof.
  destruct needle as [|c needle]; [discriminate|]. intros Hc Hp.
  apply contains_skip. revert Hp. apply forallb_impl_bool. lia.
Qed.

Lemma score_line_ascii (n : Z) :
  forallb (fun a => a <? 128) (py "score: " ++ str_of_int n ++ [10]) = true.
Proof.
  rewrite !forallb_app. repeat (apply andb_true_intro; split); try reflexivity.
  generalize (str_of_int_numeral n). apply forallb_impl_bool.
  intros c Hc. apply numeral_char_cases in Hc. lia.
Qed.

(** X11: the box of the results page does not depend on the score line: an
    analysis that starts with "score: n" gets the box of the text after that
    line, whatever the score. *)
Theorem banner_ignores_the_score (n : Z) (rest : str) :
  analysis_banner (py "score: " ++ str_of_int n ++ [10] ++ rest)
  = analysis_banner rest.
Proof.
  replace (py "score: " ++ str_of_int n ++ [10] ++ rest)
    with ((py "score: " ++ str_of_int n ++ [10]) ++ rest)
    by (rewrite <- !app_assoc; reflexivity).
  unfold analysis_banner.
  rewrite !(fun needle H =>
              contains_skip_ascii needle _ rest H (score_line_ascii n))
    by reflexivity.
  reflexivity.
Qed.

(** ** The statistics *)

Lemma py_max_greatest (t : list Q) (x : Q) :
  let m := fold_left (fun acc y => if Qltb acc y then y else acc) t x in
  (m = x \/ In m t) /\ (x <= m)%Q /\ Forall (fun y => (y <= m)%Q) t.
Proof.
  revert x. induction t as [|y t IH]; intros x; cbn zeta.
  - simpl. split; [left; reflexivity|]. split; [apply Qle_refl|constructor].
  - cbn [fold_left].
    destruct (IH (if Qltb x y then y else x)) as (Hin & Hle & Hall).
    destruct (Qltb x y) eqn:Hxy.
    + apply Qltb_lt in Hxy. split; [|split].
      * right. destruct Hin as [-> | Hin]; [left; reflexivity | right; exact Hin].
      * eapply Qle_trans; [apply Qlt_le_weak, Hxy | exact Hle].
      * constructor; assumption.
    + assert (y <= x)%Q as Hyx.
      { apply Qnot_lt_le. intros Hlt. apply Qltb_lt in Hlt. congruence. }
      split; [|split].
      * destruct Hin as [-> | Hin]; [left; reflexivity | right; right; exact Hin].
      * exact Hle.
      * constructor; [eapply Qle_trans; eassumption | assumption].
Qed.


Lemma fold_add_nonneg (l : list Q) (acc : Q) :
  (0 <= acc)%Q -> Forall (fun x => (0 <= x)%Q) l ->
  (0 <= fold_left Float.add l acc)%Q.
Proof.
  intros Hacc Hl. revert acc Hacc.
  induction Hl as [|x l Hx Hl IH]; intros acc Hacc; [exact Hacc|].
  cbn [fold_left]. apply IH. unfold Float.add. apply round_nonneg. lra.
Qed.

Lemma py_sum_nonneg (l : list Q) :
  Forall (fun x => (0 <= x)%Q) l -> (0 <= py_sum l)%Q.
Proof. apply fold_add_nonneg, Qle_refl. Qed.

(** X12: the statistics of the results page need a segment.  On a result
    without segments they raise the ValueError of [max] (the division by the
    number of segments is never reached); otherwise they return the greatest
    end time, which is the end of a segment and bounds the end of every
    segment, the number of segments, the mean segment length, which is not
    negative when no segment ends before it starts, and the number of
    characters. *)
Theorem statistics_need_a_segment (text : str) (segs : list Segment) :
  match segs with
  | [] => statistics text segs = Raised MaxOfEmpty
  | _ :: _ =>
    exists total avg,
      statistics text segs = Returned (total, len segs, avg, len text)
      /\ In total (map end_ segs)
      /\ Forall (fun seg => (end_ seg <= total)%Q) segs
      /\ (Forall (fun seg => (start seg <= end_ seg)%Q) segs -> (0 <= avg)%Q)
  end.
Proof.
  destruct segs as [|seg segs]; [reflexivity|].
  pose proof (py_max_greatest (map end_ segs) (end_ seg)) as H. cbv zeta in H.
  set (total := fold_left _ _ _) in H. destruct H as (Hin & Hle & Hall).
  exists total. eexists. split; [reflexivity|]. split; [|split].
  - cbn [map]. destruct Hin as [Hin | Hin]; [left; symmetry; exact Hin | right; exact Hin].
  - constructor; [exact Hle|].
    rewrite Forall_map in Hall. exact Hall.
  - intros Hsegs. unfold Float.div. apply round_nonneg.
    apply Qmult_le_0_compat.
    + apply py_sum_nonneg. rewrite Forall_map.
      eapply Forall_impl; [exact Hsegs|].
      intros s Hs. change (0 <= Float.round (end_ s - start s))%Q.
      change (start s <= end_ s)%Q in Hs. apply round_nonneg. lra.
    + apply Qinv_le_0_compat. unfold Float.of_int. apply round_nonneg.
      unfold len. rewrite <- (Zle_Qle 0). lia.
Qed.

(** ** The processing of an upload *)

Section Uploaded.

Variable Sample : Type.
Variable sv : Services Sample.
Variable ps : PageServices.

(** X13: an upload whose every window fails in the model with an instance of
    [Exception] reaches the results page as a processed result with an empty
    text and no segment (the analysis, which is given the empty text, is
    taken not to be interrupted), and the statistics of that page raise. *)
Theorem failed_upload_breaks_the_statistics
    (uploaded_file : Upload) (language path base saved : str) audio :
  load_model ps = Returned tt ->
  save_audio_file sv ps uploaded_file = Returned (path, base) ->
  path_exists sv path = true ->
  librosa_load sv path = Returned audio ->
  (30 < duration audio)%Q ->
  (forall (k : nat) chunk, exists e,
      model_transcribe sv k chunk
        (if str_eqb language (py "auto") then None else Some language)
      = Raised e /\
      is_Exception (exn_class e) = true) ->
  save_transcript sv
    {| text := []; segments := [];
       language := if str_eqb language (py "auto") then None else Some language |}
    None (Some base) = Returned saved ->
  (forall e, analyze_voice_phishing (detector ps) [] = Raised e ->
             is_Exception e = true) ->
  exists phishing_analysis,
    process_upload sv ps uploaded_file language
    = Returned (Processed [] [] phishing_analysis)
    /\ results_view (Processed [] [] phishing_analysis)
       = Some (analysis_banner phishing_analysis, Raised MaxOfEmpty).
Proof.
  intros Hmodel Hsaved Hex Hload Hlong Hfail Hsave Hanalysis.
  unfold process_upload.
  rewrite Hmodel, Hsaved. cbn [bind fst snd].
  unfold process_call_recording.
  rewrite (transcribe_audio_long _ sv _ path audio Hex Hload Hlong).
  rewrite (process_long_audio_all_raised _ sv _ audio Hfail).
  cbn [bind try_except text segments]. rewrite Hsave.
  cbn [bind try_except].
  destruct (analyze_voice_phishing (detector ps) []) as [a|e] eqn:Ha.
  - exists a. split; reflexivity.
  - rewrite (Hanalysis e eq_refl). eexists. split; reflexivity.
Qed.

(** X14: a failure of the analysis that is an instance of [Exception] never
    loses the transcript: the result is stored with the fixed text in place
    of the analysis, and the results page shows it in the neutral box. *)
Theorem analysis_failure_keeps_the_transcript
    (uploaded_file : Upload) (language path base text saved : str)
    (segs : list Segment) (kept : option str) (e : Graph.Exn) :
  load_model ps = Returned tt ->
  save_audio_file sv ps uploaded_file = Returned (path, base) ->
  process_call_recording sv path None
    (if str_eqb language (py "auto") then None else Some language) (Some base)
  = Returned (CallOk text segs saved kept) ->
  analyze_voice_phishing (detector ps) text = Raised e ->
  is_Exception e = true ->
  process_upload sv ps uploaded_file language
  = Returned (Processed text segs analysis_unavailable)
  /\ results_view (Processed text segs analysis_unavailable)
     = Some (Neutral, statistics text segs).
Proof.
  intros Hmodel Hsaved Hcall Hfail Hc. unfold process_upload.
  rewrite Hmodel, Hsaved. cbn [bind fst snd]. rewrite Hcall, Hfail, Hc.
  split; reflexivity.
Qed.

End Uploaded.

End PageProperties.

Section UploadRequests.
Import Py Voice Graph Formats Page Scenario Requests Uploads.

Lemma failed_upload_breaks_the_statistics_witness :
  load_model page_without_detector = Returned tt /\
  save_audio_file (services always_fails) page_without_detector recording
  = Returned (py "src/audio/20250101_000000.wav", py "20250101_000000.wav") /\
  path_exists (services always_fails) (py "src/audio/20250101_000000.wav") = true /\
  librosa_load (services always_fails) (py "src/audio/20250101_000000.wav")
  = Returned audio75 /\
  (30 < duration audio75)%Q /\
  (forall (k : nat) (chunk : list Z), exists e,
      model_transcribe (services always_fails) k chunk
        (if str_eqb (py "ko") (py "auto") then None else Some (py "ko"))
      = Raised e /\
      is_Exception (exn_class e) = true) /\
  save_transcript (services always_fails)
    {| text := []; segments := [];
       language := if str_eqb (py "ko") (py "auto") then None else Some (py "ko") |}
    None (Some (py "20250101_000000.wav"))
  = Returned (py "src/text/20250101_000000.wav.txt") /\
  (forall e, analyze_voice_phishing (detector page_without_detector) [] = Raised e ->
             is_Exception e = true) /\
  exists phishing_analysis,
    process_upload (services always_fails) page_without_detector recording (py "ko")
    = Returned (Processed [] [] phishing_analysis)
    /\ results_view (Processed [] [] phishing_analysis)
       = Some (analysis_banner phishing_analysis, Raised MaxOfEmpty).
Proof.
  split; [reflexivity|]. split; [reflexivity|]. split; [reflexivity|].
  split; [reflexivity|]. split; [exact audio75_long|].
  split; [intros k chunk; exists out_of_memory; split; reflexivity|].
  split; [reflexivity|].
  split; [intros e [= <-]; reflexivity|].
  exact (failed_upload_breaks_the_statistics Z (services always_fails)
           page_without_detector recording (py "ko")
           (py "src/audio/20250101_000000.wav") (py "20250101_000000.wav")
           (py "src/text/20250101_000000.wav.txt") audio75
           eq_refl eq_refl eq_refl eq_refl audio75_long
           (fun k chunk => ex_intro _ out_of_memory (conj eq_refl eq_refl)) eq_refl
           (fun e H => match H in (_ = o) return
                         match o with
                         | Raised e' => is_Exception e' = true
                         | Returned _ => True
                         end
                       with eq_refl => eq_refl end)).
Defined.

Lemma analysis_failure_keeps_the_transcript_witness :
  load_model page_without_detector = Returned tt /\
  save_audio_file (services_on true [0; 0; 0] answers_first) page_without_detector
    recording
  = Returned (py "src/audio/20250101_000000.wav", py "20250101_000000.wav") /\
  process_call_recording (services_on true [0; 0; 0] answers_first)
    (py "src/audio/20250101_000000.wav") None
    (if str_eqb (py "ko") (py "auto") then None else Some (py "ko"))
    (Some (py "20250101_000000.wav"))
  = Returned (CallOk (py "first") (segments first_answer)
                (py "src/text/20250101_000000.wav.txt")
                (Some (py "20250101_000000.wav"))) /\
  analyze_voice_phishing (detector page_without_detector) (py "first")
  = Raised "OpenAIError"%string /\
  is_Exception "OpenAIError" = true /\
  process_upload (services_on true [0; 0; 0] answers_first) page_without_detector
    recording (py "ko")
  = Returned (Processed (py "first") (segments first_answer) analysis_unavailable)
  /\ results_view (Processed (py "first") (segments first_answer) analysis_unavailable)
     = Some (Neutral, statistics (py "first") (segments first_answer)).
Proof.
  split; [reflexivity|]. split; [reflexivity|]. split; [reflexivity|].
  split; [reflexivity|]. split; [reflexivity|].
  exact (analysis_failure_keeps_the_transcript Z
           (services_on true [0; 0; 0] answers_first) page_without_detector
           recording (py "ko") (py "src/audio/20250101_000000.wav")
           (py "20250101_000000.wav") (py "first")
           (py "src/text/20250101_000000.wav.txt") (segments first_answer)
           (Some (py "20250101_000000.wav")) "OpenAIError"%string
           eq_refl eq_refl eq_refl eq_refl eq_refl).
Defined.

End UploadRequests.
